(** * whatsapp_monitor: the adapter (whatsapp-client.js) and the REST layer
      (server.js), embedded as state-passing functions.

    The external automation client (whatsapp-web.js) is not part of the
    repository: it is a parameter of the development, a record of the answers
    it gives ([Collaborator]).  Its answers stand for the account as it is
    while one request is served: the same question gets the same answer.
    Every call made to it is written to a log kept in the [World], so that
    "the collaborator is never called" is a statement about that log.

    Modelling conventions.
    - A JavaScript string is a [string]: a sequence of code units, here
      restricted to U+0000..U+00FF.  [toLowerCase] and the white space of
      [parseInt] are those of ECMAScript on that range.
    - An integral JavaScript number is a [Z]; a number that may be NaN is a
      [JSNum].  Sums and counts stay far below 2^53, where doubles are exact.
    - A rejected promise / thrown [Error] is [Throw msg], msg its [message].
    - A field of a request body or query is a string or absent ([None]:
      [undefined]); what the routes test on it is its truthiness.
    - [console.log] output is not modelled.

    Main results, by source function.
    - getAllUnreadMessages: [getAllUnreadMessages_spec],
      [unreadCount_is_filtered_length], [unread_scan_aborts].
    - getUnreadMessagesFromChat: [getUnreadMessagesFromChat_spec].
    - getUnreadChats, GET /api/unread-chats: [getUnreadChats_spec].
    - markAllChatsAsRead, POST /api/mark-all-read:
      [markAllChatsAsRead_spec], [mark_all_read_route_spec].
    - searchMessages: [searchMessages_spec], [search_ignores_query_case],
      [search_narrows].
    - readiness checks of the adapter: [operations_fail_when_not_ready],
      [ready_implies_client_info], [destroy_spec].
    - requireClient and the routes: [readiness_gate],
      [send_and_search_validation], [messages_limit_falls_back],
      [decimal_limit_is_read], [status_table], [success_flag],
      [chat_lookup_rejection], [requests_only_extend_the_log]. *)

From Stdlib Require Import List String Ascii ZArith Bool Lia.
From Stdlib Require Import DecimalString.
From Stdlib Require DecimalPos.
Import ListNotations.
Local Open Scope string_scope.
Local Open Scope Z_scope.

(** ** JavaScript values used by the two files *)

Inductive JSNum : Type :=
| NaN : JSNum
| Num : Z -> JSNum.

(** ToBoolean on a number: NaN and 0 are falsy. *)
Definition truthy_num (n : JSNum) : bool :=
  match n with
  | NaN => false
  | Num z => negb (z =? 0)
  end.

(** ToBoolean on a string: only the empty string is falsy. *)
Definition truthy_str (s : string) : bool :=
  match s with
  | EmptyString => false
  | String _ _ => true
  end.

(** ToBoolean on a field that may be [undefined] (a missing body or query
    field) or a string. *)
Definition truthy_field (f : option string) : bool :=
  match f with
  | None => false
  | Some s => truthy_str s
  end.

(** [a || b] on numbers. *)
Definition or_num (a b : JSNum) : JSNum :=
  if truthy_num a then a else b.

(** ** String.prototype.toLowerCase and String.prototype.includes *)

Definition lower_unit (c : ascii) : ascii :=
  let n := N_of_ascii c in
  if ((65 <=? n) && (n <=? 90))%N then ascii_of_N (n + 32)
  else if ((192 <=? n) && (n <=? 222) && negb (n =? 215))%N
       then ascii_of_N (n + 32)
       else c.

Fixpoint toLowerCase (s : string) : string :=
  match s with
  | EmptyString => EmptyString
  | String c r => String (lower_unit c) (toLowerCase r)
  end.

(** [includes q s] is [s.includes(q)]: does [q] occur in [s] at some
    position. *)
Fixpoint includes (q s : string) : bool :=
  if prefix q s then true
  else match s with
       | EmptyString => false
       | String _ r => includes q r
       end.

(** The filter predicate of searchMessages:
    [msg.body && msg.body.toLowerCase().includes(query.toLowerCase())]. *)
Definition body_matches (query body : string) : bool :=
  truthy_str body && includes (toLowerCase query) (toLowerCase body).

(** ** parseInt (radix argument absent) *)

Definition is_white (c : ascii) : bool :=
  let n := N_of_ascii c in
  ((9 <=? n) && (n <=? 13) || (n =? 32) || (n =? 160))%N.

Fixpoint trim_start (s : string) : string :=
  match s with
  | String c r => if is_white c then trim_start r else s
  | EmptyString => EmptyString
  end.

(** Value of a code unit as a digit of the given radix (10 or 16). *)
Definition digit_val (radix : Z) (c : ascii) : option Z :=
  let n := Z.of_N (N_of_ascii c) in
  let v := if (48 <=? n) && (n <=? 57) then Some (n - 48)
           else if (97 <=? n) && (n <=? 122) then Some (n - 87)
           else if (65 <=? n) && (n <=? 90) then Some (n - 55)
           else None in
  match v with
  | Some d => if d <? radix then Some d else None
  | None => None
  end.

(** Reads the longest prefix of digits; [acc] is [None] until a digit has been
    read. *)
Fixpoint read_digits (radix : Z) (acc : option Z) (s : string) : option Z :=
  match s with
  | EmptyString => acc
  | String c r =>
      match digit_val radix c with
      | None => acc
      | Some d =>
          read_digits radix
            (Some (match acc with None => d | Some a => a * radix + d end)) r
      end
  end.

Definition strip_sign (s : string) : Z * string :=
  match s with
  | String "-" r => (-1, r)
  | String "+" r => (1, r)
  | _ => (1, s)
  end.

Definition strip_hex (s : string) : Z * string :=
  match s with
  | String "0" (String "x" r) => (16, r)
  | String "0" (String "X" r) => (16, r)
  | _ => (10, s)
  end.

Definition parseInt (input : string) : JSNum :=
  let (sign, s1) := strip_sign (trim_start input) in
  let (radix, s2) := strip_hex s1 in
  match read_digits radix None s2 with
  | None => NaN
  | Some m => Num (sign * m)
  end.

(** [parseInt(x)] when [x] may be [undefined]: ToString gives "undefined",
    which has no leading digit. *)
Definition parseInt_field (f : option string) : JSNum :=
  match f with
  | None => parseInt "undefined"
  | Some s => parseInt s
  end.

(** Template-literal rendering of an integral number. *)
Definition show_Z (z : Z) : string :=
  NilZero.string_of_int (Z.to_int z).

(** ** Data model: passthrough views of the library's objects *)

Record Message : Type := mkMessage {
  msg_id : string;            (* id._serialized *)
  msg_body : string;
  msg_type : string;
  msg_timestamp : Z;
  msg_from : string;
  msg_to : string;
  msg_fromMe : bool;
  msg_hasMedia : bool;
  msg_isForwarded : bool;
  msg_isStarred : bool
}.

Record Chat : Type := mkChat {
  chat_id : string;           (* id._serialized *)
  chat_name : string;
  chat_isGroup : bool;
  chat_isReadOnly : bool;
  chat_unreadCount : Z;
  chat_timestamp : Z;
  chat_archived : bool;
  chat_pinned : bool;
  chat_lastMessage : option Message
}.

Record Contact : Type := mkContact {
  contact_id : string;        (* id._serialized *)
  contact_number : string;
  contact_name : string;
  contact_pushname : string;
  contact_isMyContact : bool;
  contact_isBlocked : bool;
  contact_isWAContact : bool
}.

Record ClientInfo : Type := mkClientInfo {
  info_pushname : string;
  info_wid_user : string;
  info_wid_serialized : string;
  info_platform : string;
  info_me : string
}.

(** The object literals built by the adapter. *)

Record UnreadEntry : Type := mkUnreadEntry {
  ue_chatId : string;
  ue_chatName : string;
  ue_isGroup : bool;
  ue_unreadCount : Z;
  ue_messages : list Message
}.

Record SearchEntry : Type := mkSearchEntry {
  se_chatId : string;
  se_chatName : string;
  se_isGroup : bool;
  se_matches : list Message
}.

Record MarkResult : Type := mkMarkResult {
  mr_chatId : string;
  mr_chatName : string;
  mr_success : bool;
  mr_error : option string    (* present only on failure *)
}.

Record MarkedChat : Type := mkMarkedChat {
  mc_chatId : string;
  mc_chatName : string
}.

Record UserInfo : Type := mkUserInfo {
  ui_pushname : string;
  ui_number : string;
  ui_platform : string;
  ui_wid : string;
  ui_me : string
}.

Record SearchOptions : Type := mkSearchOptions {
  so_limit : option JSNum;    (* None: the property is absent *)
  so_chatId : option string   (* None: absent or null *)
}.

(** ** Outcomes, the collaborator and the world *)

Inductive Result (A : Type) : Type :=
| Ok : A -> Result A
| Throw : string -> Result A.
Arguments Ok {A} _.
Arguments Throw {A} _.

(** The answers of the external client.  A chat's methods ([fetchMessages],
    [sendSeen], [sendMessage]) are answered per chat object. *)
Record Collaborator : Type := mkCollaborator {
  c_getChats : Result (list Chat);
  c_getChatById : string -> Result Chat;
  c_fetchMessages : Chat -> JSNum -> Result (list Message);
  c_sendSeen : Chat -> Result unit;
  c_chatSendMessage : Chat -> string -> Result Message;
  c_sendMessage : string -> string -> Result Message;
  c_getContactById : string -> Result Contact;
  c_getContacts : Result (list Contact);
  c_logout : Result unit;
  c_destroy : Result unit
}.

(** One entry of the log per call that reaches the external client. *)
Inductive Call : Type :=
| CInitialize
| CGetChats
| CGetChatById (chatId : string)
| CFetchMessages (chatId : string) (limit : JSNum)
| CSendSeen (chatId : string)
| CChatSendMessage (chatId : string) (content : string)
| CSendMessage (chatId : string) (content : string)
| CGetContactById (contactId : string)
| CGetContacts
| CLogout
| CDestroy.

Record World : Type := mkWorld {
  client : bool;                    (* this.client !== null *)
  isReady : bool;                   (* this.isReady *)
  clientInfo : option ClientInfo;   (* this.clientInfo *)
  qrCode : option string;           (* this.qrCode *)
  lastQRCode : option string;       (* server.js: lastQRCode *)
  calls : list Call                 (* oldest call first *)
}.

Definition log (c : Call) (w : World) : World :=
  mkWorld (client w) (isReady w) (clientInfo w) (qrCode w) (lastQRCode w)
          (calls w ++ [c]).

(** ** The monad of async functions: state passing with exceptions *)

Definition M (A : Type) : Type := World -> Result A * World.

Definition ret {A} (a : A) : M A := fun w => (Ok a, w).

Definition throw {A} (msg : string) : M A := fun w => (Throw msg, w).

Definition bind {A B} (m : M A) (k : A -> M B) : M B :=
  fun w =>
    match m w with
    | (Ok a, w') => k a w'
    | (Throw e, w') => (Throw e, w')
    end.

(** [try { m } catch (error) { h error.message }] *)
Definition try_catch {A} (m : M A) (h : string -> M A) : M A :=
  fun w =>
    match m w with
    | (Ok a, w') => (Ok a, w')
    | (Throw e, w') => h e w'
    end.

Notation "x <- m ;; k" := (bind m (fun x => k))
  (at level 61, m at next level, right associativity).
Notation "m ;;; k" := (bind m (fun _ => k))
  (at level 61, right associativity).

(** A call to the external client: logged, then answered. *)
Definition call {A} (c : Call) (answer : Result A) : M A :=
  fun w => (answer, log c w).

(** [for (const x of xs) { ... }] over a local accumulator. *)
Fixpoint for_of {A B} (xs : list A) (acc : B) (body : A -> B -> M B) : M B :=
  match xs with
  | [] => ret acc
  | x :: rest => acc' <- body x acc ;; for_of rest acc' body
  end.

(** Array.prototype.push on the accumulator. *)
Definition push {A} (xs : list A) (x : A) : list A := xs ++ [x].

Definition not_ready_msg : string := "Client is not ready".

(** [if (!this.isReady) throw new Error('Client is not ready')] *)
Definition check_ready : M unit :=
  fun w => if negb (isReady w) then (Throw not_ready_msg, w) else (Ok tt, w).

Definition get {A} (proj : World -> A) : M A := fun w => (Ok (proj w), w).

Definition modify (f : World -> World) : M unit := fun w => (Ok tt, f w).

Definition null_deref_msg : string :=
  "Cannot read properties of null (reading 'wid')".

(** ** whatsapp-client.js: class WhatsAppClient *)

Section WhatsAppClient.

Variable collab : Collaborator.

Definition initialize : M unit :=
  fun w =>
    if client w then (Ok tt, w)
    else (Ok tt,
          log CInitialize
            (mkWorld true (isReady w) (clientInfo w) (qrCode w)
                     (lastQRCode w) (calls w))).

Definition isClientReady : M bool := get isReady.

Definition getClientInfo : M (option ClientInfo) := get clientInfo.

Definition getQRCode : M (option string) := get qrCode.

(* ===== CHAT OPERATIONS ===== *)

Definition getChats : M (list Chat) :=
  check_ready ;;;
  call CGetChats (c_getChats collab).

Definition getChatById (chatId : string) : M Chat :=
  check_ready ;;;
  call (CGetChatById chatId) (c_getChatById collab chatId).

(** [chat.fetchMessages({ limit })] *)
Definition fetchMessages (chat : Chat) (limit : JSNum) : M (list Message) :=
  call (CFetchMessages (chat_id chat) limit) (c_fetchMessages collab chat limit).

(** [chat.sendSeen()] *)
Definition sendSeen (chat : Chat) : M unit :=
  call (CSendSeen (chat_id chat)) (c_sendSeen collab chat).

Definition is_unread (chat : Chat) : bool := chat_unreadCount chat >? 0.

Definition not_fromMe (msg : Message) : bool := negb (msg_fromMe msg).

Definition getUnreadChats : M (list Chat) :=
  chats <- getChats ;;
  ret (filter is_unread chats).

Definition getAllUnreadMessages : M (list UnreadEntry) :=
  chats <- getChats ;;
  for_of chats [] (fun chat allUnreadMessages =>
    if chat_unreadCount chat >? 0 then
      messages <- fetchMessages chat (Num (chat_unreadCount chat)) ;;
      let unreadMessages := filter not_fromMe messages in
      if (0 <? List.length unreadMessages)%nat then
        ret (push allUnreadMessages
               (mkUnreadEntry (chat_id chat) (chat_name chat)
                  (chat_isGroup chat)
                  (Z.of_nat (List.length unreadMessages))
                  unreadMessages))
      else ret allUnreadMessages
    else ret allUnreadMessages).

Definition getMessages (chatId : string) (limit : option JSNum)
  : M (list Message) :=
  let limit := match limit with Some l => l | None => Num 50 end in
  chat <- getChatById chatId ;;
  fetchMessages chat limit.

Definition getUnreadMessagesFromChat (chatId : string) : M (list Message) :=
  chat <- getChatById chatId ;;
  if chat_unreadCount chat =? 0 then ret []
  else
    messages <- fetchMessages chat (Num (chat_unreadCount chat)) ;;
    ret (filter not_fromMe messages).

(* ===== MESSAGE ACTIONS ===== *)

Definition markChatAsRead (chatId : string) : M MarkedChat :=
  chat <- getChatById chatId ;;
  sendSeen chat ;;;
  ret (mkMarkedChat chatId (chat_name chat)).

Definition markAllChatsAsRead : M (list MarkResult) :=
  chats <- getChats ;;
  let unreadChats := filter is_unread chats in
  for_of unreadChats [] (fun chat results =>
    try_catch
      (sendSeen chat ;;;
       ret (push results
              (mkMarkResult (chat_id chat) (chat_name chat) true None)))
      (fun error_message =>
         ret (push results
                (mkMarkResult (chat_id chat) (chat_name chat) false
                   (Some error_message))))).

Definition sendMessage (chatId message : string) : M Message :=
  chat <- getChatById chatId ;;
  call (CChatSendMessage (chat_id chat) message)
       (c_chatSendMessage collab chat message).

Definition sendMessageToSelf (message : string) : M Message :=
  check_ready ;;;
  info <- get clientInfo ;;
  match info with
  | None => throw null_deref_msg
  | Some i =>
      let myNumber := info_wid_serialized i in
      call (CSendMessage myNumber message)
           (c_sendMessage collab myNumber message)
  end.

(* ===== SEARCH OPERATIONS ===== *)

Definition search_filter (query : string) (messages : list Message)
  : list Message :=
  filter (fun msg => body_matches query (msg_body msg)) messages.

Definition searchMessages (query : string) (options : SearchOptions)
  : M (list SearchEntry) :=
  let limit := match so_limit options with Some l => l | None => Num 50 end in
  let chatId := so_chatId options in
  let results := [] in
  if truthy_field chatId then
    chat <- getChatById (match chatId with Some c => c | None => "" end) ;;
    messages <- fetchMessages chat limit ;;
    let matches := search_filter query messages in
    if (0 <? List.length matches)%nat then
      ret (push results
             (mkSearchEntry (chat_id chat) (chat_name chat)
                (chat_isGroup chat) matches))
    else ret results
  else
    chats <- getChats ;;
    for_of chats results (fun chat results =>
      messages <- fetchMessages chat limit ;;
      let matches := search_filter query messages in
      if (0 <? List.length matches)%nat then
        ret (push results
               (mkSearchEntry (chat_id chat) (chat_name chat)
                  (chat_isGroup chat) matches))
      else ret results).

(* ===== CONTACT OPERATIONS ===== *)

Definition getContactById (contactId : string) : M Contact :=
  check_ready ;;;
  call (CGetContactById contactId) (c_getContactById collab contactId).

Definition getContacts : M (list Contact) :=
  check_ready ;;;
  call CGetContacts (c_getContacts collab).

Definition getUserInfo : M UserInfo :=
  check_ready ;;;
  info <- get clientInfo ;;
  match info with
  | None => throw "Cannot read properties of null (reading 'pushname')"
  | Some i =>
      ret (mkUserInfo (info_pushname i) (info_wid_user i) (info_platform i)
             (info_wid_serialized i) (info_me i))
  end.

(* ===== CLIENT CONTROL ===== *)

Definition logout : M unit :=
  c <- get client ;;
  if c then
    call CLogout (c_logout collab) ;;;
    modify (fun w => mkWorld (client w) false None (qrCode w)
                             (lastQRCode w) (calls w))
  else ret tt.

Definition destroy : M unit :=
  c <- get client ;;
  if c then
    call CDestroy (c_destroy collab) ;;;
    modify (fun w => mkWorld false false None (qrCode w)
                             (lastQRCode w) (calls w))
  else ret tt.

End WhatsAppClient.

(** ** Events of the external client, as handled by [_setupEventHandlers]
    and by the listeners server.js registers on the adapter *)

Inductive Event : Type :=
| EvQr (qr : string)
| EvReady (info : ClientInfo)
| EvAuthenticated
| EvAuthFailure (msg : string)
| EvDisconnected (reason : string).

Definition on_event (e : Event) (w : World) : World :=
  match e with
  | EvQr qr =>
      mkWorld (client w) (isReady w) (clientInfo w) (Some qr) (Some qr) (calls w)
  | EvReady info =>
      mkWorld (client w) true (Some info) (qrCode w) None (calls w)
  | EvAuthenticated => w
  | EvAuthFailure _ =>
      mkWorld (client w) false (clientInfo w) (qrCode w) (lastQRCode w) (calls w)
  | EvDisconnected _ =>
      mkWorld (client w) false (clientInfo w) (qrCode w) (lastQRCode w) (calls w)
  end.

(** ** server.js *)

#[warnings="-register-all"]
Inductive json : Type :=
| JNull
| JBool (b : bool)
| JNumber (z : Z)
| JString (s : string)
| JArray (items : list json)
| JObject (fields : list (string * json)).

Record Response : Type := mkResponse {
  status : Z;
  body : json
}.

(** [res.json(obj)] answers with status 200. *)
Definition res_json (obj : json) : Response := mkResponse 200 obj.

Definition count {A} (xs : list A) : json := JNumber (Z.of_nat (List.length xs)).

(** [xs.reduce((sum, x) => sum + f(x), 0)] *)
Definition reduce_sum {A} (f : A -> Z) (xs : list A) : Z :=
  fold_left (fun sum x => sum + f x) xs 0.

Definition json_opt_str (o : option string) : json :=
  match o with
  | Some s => JString s
  | None => JNull
  end.

Inductive Request : Type :=
| GetRoot
| GetHealth
| GetQr
| GetApiChats
| GetUnreadChats
| GetUnreadMessages
| GetChatMessages (chatId : string) (limit : option string)
| GetChatUnread (chatId : string)
| PostMarkRead (chatId : string)
| PostMarkAllRead
| PostSendMessage (chatId message : option string)
| PostSendMessageToSelf (message : option string)
| GetSearch (query limit chatId : option string)
| GetContact (contactId : string)
| GetApiContacts
| Unmatched (path : string).

(** The routes registered with the [requireClient] middleware. *)
Definition is_data_route (r : Request) : bool :=
  match r with
  | GetRoot | GetHealth | GetQr | Unmatched _ => false
  | _ => true
  end.

Definition not_ready_error : string :=
  "WhatsApp client is not ready. Please scan QR code first.".

Definition is_not_null {A} (o : option A) : bool :=
  match o with
  | Some _ => true
  | None => false
  end.

(** The limit handed to the adapter by GET /api/chats/:chatId/messages:
    [parseInt(req.query.limit) || 50]. *)
Definition messages_limit (limit : option string) : JSNum :=
  or_num (parseInt_field limit) (Num 50).

(** The limit handed to the adapter by GET /api/search: [limit = 50] in the
    destructuring, then [parseInt(limit)]. *)
Definition search_limit (limit : option string) : JSNum :=
  match limit with
  | None => Num 50
  | Some s => parseInt s
  end.

Definition chat_lastMessage_full (chat : Chat) : json :=
  match chat_lastMessage chat with
  | Some m => JObject [("body", JString (msg_body m));
                       ("type", JString (msg_type m));
                       ("timestamp", JNumber (msg_timestamp m));
                       ("fromMe", JBool (msg_fromMe m))]
  | None => JNull
  end.

Definition chat_lastMessage_short (chat : Chat) : json :=
  match chat_lastMessage chat with
  | Some m => JObject [("body", JString (msg_body m));
                       ("timestamp", JNumber (msg_timestamp m))]
  | None => JNull
  end.

Definition format_chat (chat : Chat) : json :=
  JObject [("id", JString (chat_id chat));
           ("name", JString (chat_name chat));
           ("isGroup", JBool (chat_isGroup chat));
           ("isReadOnly", JBool (chat_isReadOnly chat));
           ("unreadCount", JNumber (chat_unreadCount chat));
           ("timestamp", JNumber (chat_timestamp chat));
           ("archived", JBool (chat_archived chat));
           ("pinned", JBool (chat_pinned chat));
           ("lastMessage", chat_lastMessage_full chat)].

(** The mapped object of GET /api/unread-chats, kept as a record because the
    route reads its [unreadCount] back in the [reduce]. *)
Record UnreadChatView : Type := mkUnreadChatView {
  uc_id : string;
  uc_name : string;
  uc_isGroup : bool;
  uc_unreadCount : Z;
  uc_lastMessage : json
}.

Definition view_unread_chat (chat : Chat) : UnreadChatView :=
  mkUnreadChatView (chat_id chat) (chat_name chat) (chat_isGroup chat)
    (chat_unreadCount chat) (chat_lastMessage_short chat).

Definition json_unread_chat (v : UnreadChatView) : json :=
  JObject [("id", JString (uc_id v));
           ("name", JString (uc_name v));
           ("isGroup", JBool (uc_isGroup v));
           ("unreadCount", JNumber (uc_unreadCount v));
           ("lastMessage", uc_lastMessage v)].

Definition format_unread_message (msg : Message) : json :=
  JObject [("id", JString (msg_id msg));
           ("body", JString (msg_body msg));
           ("type", JString (msg_type msg));
           ("timestamp", JNumber (msg_timestamp msg));
           ("from", JString (msg_from msg));
           ("hasMedia", JBool (msg_hasMedia msg));
           ("isForwarded", JBool (msg_isForwarded msg))].

Definition format_unread_entry (e : UnreadEntry) : json :=
  JObject [("chatId", JString (ue_chatId e));
           ("chatName", JString (ue_chatName e));
           ("isGroup", JBool (ue_isGroup e));
           ("unreadCount", JNumber (ue_unreadCount e));
           ("messages", JArray (map format_unread_message (ue_messages e)))].

Definition format_message (msg : Message) : json :=
  JObject [("id", JString (msg_id msg));
           ("body", JString (msg_body msg));
           ("type", JString (msg_type msg));
           ("timestamp", JNumber (msg_timestamp msg));
           ("from", JString (msg_from msg));
           ("to", JString (msg_to msg));
           ("fromMe", JBool (msg_fromMe msg));
           ("hasMedia", JBool (msg_hasMedia msg));
           ("isForwarded", JBool (msg_isForwarded msg));
           ("isStarred", JBool (msg_isStarred msg))].

Definition format_chat_unread (msg : Message) : json :=
  JObject [("id", JString (msg_id msg));
           ("body", JString (msg_body msg));
           ("type", JString (msg_type msg));
           ("timestamp", JNumber (msg_timestamp msg));
           ("from", JString (msg_from msg));
           ("hasMedia", JBool (msg_hasMedia msg))].

Definition format_mark_result (r : MarkResult) : json :=
  JObject ([("chatId", JString (mr_chatId r));
            ("chatName", JString (mr_chatName r));
            ("success", JBool (mr_success r))]
           ++ match mr_error r with
              | Some e => [("error", JString e)]
              | None => []
              end).

Definition format_match (msg : Message) : json :=
  JObject [("id", JString (msg_id msg));
           ("body", JString (msg_body msg));
           ("timestamp", JNumber (msg_timestamp msg));
           ("fromMe", JBool (msg_fromMe msg))].

Definition format_search_entry (e : SearchEntry) : json :=
  JObject [("chatId", JString (se_chatId e));
           ("chatName", JString (se_chatName e));
           ("isGroup", JBool (se_isGroup e));
           ("matchCount", count (se_matches e));
           ("matches", JArray (map format_match (se_matches e)))].

Definition format_contact (c : Contact) : json :=
  JObject [("id", JString (contact_id c));
           ("number", JString (contact_number c));
           ("name", JString (contact_name c));
           ("pushname", JString (contact_pushname c));
           ("isMyContact", JBool (contact_isMyContact c));
           ("isBlocked", JBool (contact_isBlocked c));
           ("isWAContact", JBool (contact_isWAContact c))].

Definition format_contact_short (c : Contact) : json :=
  JObject [("id", JString (contact_id c));
           ("number", JString (contact_number c));
           ("name", JString (contact_name c));
           ("pushname", JString (contact_pushname c));
           ("isMyContact", JBool (contact_isMyContact c))].

Definition documentation : json :=
  JObject [("health", JString "GET /health");
           ("qr", JString "GET /qr");
           ("chats", JString "GET /api/chats");
           ("unreadChats", JString "GET /api/unread-chats");
           ("unreadMessages", JString "GET /api/unread-messages");
           ("chatMessages", JString "GET /api/chats/:chatId/messages?limit=50");
           ("unreadFromChat", JString "GET /api/chats/:chatId/unread");
           ("markRead", JString "POST /api/chats/:chatId/mark-read");
           ("markAllRead", JString "POST /api/mark-all-read");
           ("sendMessage", JString "POST /api/send-message");
           ("searchMessages", JString "GET /api/search?query=keyword&limit=50");
           ("contactInfo", JString "GET /api/contacts/:contactId");
           ("allContacts", JString "GET /api/contacts")].

Section Server.

Variable collab : Collaborator.

(* ===== Middleware ===== *)

(** [requireClient]: answers 503 itself, or hands over to [next]. *)
Definition requireClient (next : M Response) : M Response :=
  ready <- isClientReady ;;
  if negb ready then
    qr <- get lastQRCode ;;
    ret (mkResponse 503
           (JObject [("success", JBool false);
                     ("error", JString not_ready_error);
                     ("qrAvailable", JBool (is_not_null qr))]))
  else next.

(** The error-handling middleware, reached through [asyncHandler]'s
    [.catch(next)] when the handler's promise rejects. *)
Definition error_middleware (m : M Response) : World -> Response * World :=
  fun w =>
    match m w with
    | (Ok r, w') => (r, w')
    | (Throw message, w') =>
        (mkResponse 500
           (JObject [("success", JBool false);
                     ("error", JString "Internal server error");
                     ("message", JString message)]),
         w')
    end.

(* ===== API ENDPOINTS ===== *)

Definition root_route : M Response :=
  ready <- isClientReady ;;
  ret (res_json
         (JObject [("name", JString "WhatsApp REST API");
                   ("version", JString "1.0.0");
                   ("status", JString (if ready then "ready" else "not ready"));
                   ("documentation", documentation)])).

Definition health_route : M Response :=
  info <- getClientInfo ;;
  ready <- isClientReady ;;
  qr <- get lastQRCode ;;
  ret (res_json
         (JObject [("success", JBool true);
                   ("status", JString (if ready then "ready" else "initializing"));
                   ("connected", JBool ready);
                   ("qrAvailable", JBool (is_not_null qr));
                   ("info",
                    match info with
                    | Some i => JObject [("name", JString (info_pushname i));
                                         ("number", JString (info_wid_user i));
                                         ("platform", JString (info_platform i))]
                    | None => JNull
                    end)])).

Definition qr_route : M Response :=
  ready <- isClientReady ;;
  qr <- get lastQRCode ;;
  if ready then
    ret (res_json (JObject [("success", JBool true);
                            ("message", JString "Already authenticated");
                            ("authenticated", JBool true)]))
  else if truthy_field qr then
    ret (res_json (JObject [("success", JBool true);
                            ("qr", json_opt_str qr);
                            ("message", JString "Scan this QR code with WhatsApp")]))
  else
    ret (res_json (JObject [("success", JBool false);
                            ("message",
                             JString "QR code not yet generated. Please wait...")])).

Definition chats_route : M Response :=
  chats <- getChats collab ;;
  let result := map format_chat chats in
  ret (res_json (JObject [("success", JBool true);
                          ("count", count result);
                          ("data", JArray result)])).

Definition unread_chats_route : M Response :=
  unreadChats <- getUnreadChats collab ;;
  let result := map view_unread_chat unreadChats in
  ret (res_json (JObject [("success", JBool true);
                          ("count", count result);
                          ("totalUnread",
                           JNumber (reduce_sum uc_unreadCount result));
                          ("data", JArray (map json_unread_chat result))])).

Definition unread_messages_route : M Response :=
  allUnreadMessages <- getAllUnreadMessages collab ;;
  let totalMessages :=
    reduce_sum (fun chat => Z.of_nat (List.length (ue_messages chat)))
               allUnreadMessages in
  let result := map format_unread_entry allUnreadMessages in
  ret (res_json (JObject [("success", JBool true);
                          ("chatCount", count result);
                          ("totalMessages", JNumber totalMessages);
                          ("data", JArray result)])).

Definition chat_messages_route (chatId : string) (limit : option string)
  : M Response :=
  let limit := messages_limit limit in
  chat <- getChatById collab chatId ;;
  messages <- getMessages collab chatId (Some limit) ;;
  let result := map format_message messages in
  ret (res_json (JObject [("success", JBool true);
                          ("chatId", JString chatId);
                          ("chatName", JString (chat_name chat));
                          ("count", count result);
                          ("data", JArray result)])).

Definition chat_unread_route (chatId : string) : M Response :=
  chat <- getChatById collab chatId ;;
  unreadMessages <- getUnreadMessagesFromChat collab chatId ;;
  let result := map format_chat_unread unreadMessages in
  ret (res_json (JObject [("success", JBool true);
                          ("chatId", JString chatId);
                          ("chatName", JString (chat_name chat));
                          ("unreadCount", count result);
                          ("data", JArray result)])).

Definition mark_read_route (chatId : string) : M Response :=
  result <- markChatAsRead collab chatId ;;
  ret (res_json
         (JObject [("success", JBool true);
                   ("message",
                    JString ("Marked " ++ mc_chatName result ++ " as read"));
                   ("chatId", JString (mc_chatId result));
                   ("chatName", JString (mc_chatName result))])).

Definition mark_all_read_route : M Response :=
  results <- markAllChatsAsRead collab ;;
  let markedCount := List.length (filter mr_success results) in
  ret (res_json
         (JObject [("success", JBool true);
                   ("message",
                    JString ("Marked " ++ show_Z (Z.of_nat markedCount)
                             ++ " out of "
                             ++ show_Z (Z.of_nat (List.length results))
                             ++ " chats as read"));
                   ("markedCount", JNumber (Z.of_nat markedCount));
                   ("totalUnread", count results);
                   ("details", JArray (map format_mark_result results))])).

Definition send_message_route (chatId message : option string) : M Response :=
  if negb (truthy_field chatId) || negb (truthy_field message) then
    ret (mkResponse 400
           (JObject [("success", JBool false);
                     ("error", JString "Both chatId and message are required")]))
  else
    let chatId := match chatId with Some c => c | None => "" end in
    let message := match message with Some m => m | None => "" end in
    chat <- getChatById collab chatId ;;
    sentMessage <- sendMessage collab chatId message ;;
    ret (res_json
           (JObject [("success", JBool true);
                     ("message", JString "Message sent successfully");
                     ("chatId", JString chatId);
                     ("chatName", JString (chat_name chat));
                     ("messageId", JString (msg_id sentMessage));
                     ("timestamp", JNumber (msg_timestamp sentMessage))])).

Definition send_message_to_self_route (message : option string) : M Response :=
  if negb (truthy_field message) then
    ret (mkResponse 400
           (JObject [("success", JBool false);
                     ("error", JString "message is required")]))
  else
    let message := match message with Some m => m | None => "" end in
    sentMessage <- sendMessageToSelf collab message ;;
    ret (res_json
           (JObject [("success", JBool true);
                     ("message", JString "Message sent to self successfully");
                     ("messageId", JString (msg_id sentMessage));
                     ("timestamp", JNumber (msg_timestamp sentMessage))])).

Definition search_route (query limit chatId : option string) : M Response :=
  if negb (truthy_field query) then
    ret (mkResponse 400
           (JObject [("success", JBool false);
                     ("error", JString "query parameter is required")]))
  else
    let query := match query with Some q => q | None => "" end in
    results <- searchMessages collab query
                 (mkSearchOptions (Some (search_limit limit))
                    (if truthy_field chatId then chatId else None)) ;;
    let totalMatches :=
      reduce_sum (fun chat => Z.of_nat (List.length (se_matches chat)))
                 results in
    let formattedResults := map format_search_entry results in
    ret (res_json (JObject [("success", JBool true);
                            ("query", JString query);
                            ("chatCount", count formattedResults);
                            ("totalMatches", JNumber totalMatches);
                            ("data", JArray formattedResults)])).

Definition contact_route (contactId : string) : M Response :=
  contact <- getContactById collab contactId ;;
  ret (res_json (JObject [("success", JBool true);
                          ("data", format_contact contact)])).

Definition contacts_route : M Response :=
  contacts <- getContacts collab ;;
  let result := map format_contact_short contacts in
  ret (res_json (JObject [("success", JBool true);
                          ("count", count result);
                          ("data", JArray result)])).

Definition not_found_route (path : string) : M Response :=
  ret (mkResponse 404
         (JObject [("success", JBool false);
                   ("error", JString "Endpoint not found");
                   ("path", JString path)])).

(** The route table, in registration order. *)
Definition route (r : Request) : M Response :=
  match r with
  | GetRoot => root_route
  | GetHealth => health_route
  | GetQr => qr_route
  | GetApiChats => requireClient chats_route
  | GetUnreadChats => requireClient unread_chats_route
  | GetUnreadMessages => requireClient unread_messages_route
  | GetChatMessages chatId limit =>
      requireClient (chat_messages_route chatId limit)
  | GetChatUnread chatId => requireClient (chat_unread_route chatId)
  | PostMarkRead chatId => requireClient (mark_read_route chatId)
  | PostMarkAllRead => requireClient mark_all_read_route
  | PostSendMessage chatId message =>
      requireClient (send_message_route chatId message)
  | PostSendMessageToSelf message =>
      requireClient (send_message_to_self_route message)
  | GetSearch query limit chatId =>
      requireClient (search_route query limit chatId)
  | GetContact contactId => requireClient (contact_route contactId)
  | GetApiContacts => requireClient contacts_route
  | Unmatched path => not_found_route path
  end.

(** One request, from arrival to the response sent. *)
Definition app (r : Request) : World -> Response * World :=
  error_middleware (route r).

End Server.

(** ** Vocabulary of the statements *)

(** The world after the given calls have been logged, oldest first. *)
Definition log_all (cs : list Call) (w : World) : World :=
  fold_left (fun w c => log c w) cs w.


(** The collaborator keeps to the limit it is given. *)
Definition honours_limit (collab : Collaborator) : Prop :=
  forall chat n messages,
    0 < n ->
    c_fetchMessages collab chat (Num n) = Ok messages ->
    Z.of_nat (List.length messages) <= n.

Section Specification.

Variable collab : Collaborator.

(** The fetch that [chat.fetchMessages({ limit })] is answered with. *)
Definition fetched (limit : JSNum) (chat : Chat) : list Message :=
  match c_fetchMessages collab chat limit with
  | Ok messages => messages
  | Throw _ => []
  end.

Definition fetch_ok (limit : JSNum) (chat : Chat) : Prop :=
  exists messages, c_fetchMessages collab chat limit = Ok messages.

(** Spec, listAllUnreadMessages: "for each unread chat, fetch up to
    unreadCount most recent messages, filter to non-self-authored, skip
    chats with zero resulting messages". *)
Definition unread_of (chat : Chat) : list Message :=
  filter not_fromMe (fetched (Num (chat_unreadCount chat)) chat).

Definition has_unread (chat : Chat) : bool :=
  match unread_of chat with
  | [] => false
  | _ :: _ => true
  end.

Definition unread_entry_of (chat : Chat) : UnreadEntry :=
  mkUnreadEntry (chat_id chat) (chat_name chat) (chat_isGroup chat)
    (Z.of_nat (List.length (unread_of chat))) (unread_of chat).

Definition spec_listAllUnreadMessages (chats : list Chat) : list UnreadEntry :=
  map unread_entry_of (filter has_unread (filter is_unread chats)).

Definition unread_fetch_ok (chat : Chat) : Prop :=
  fetch_ok (Num (chat_unreadCount chat)) chat.

(** The body of the loop of getAllUnreadMessages, under a name. *)
Definition unread_step (chat : Chat) (allUnreadMessages : list UnreadEntry)
  : M (list UnreadEntry) :=
  if chat_unreadCount chat >? 0 then
    messages <- fetchMessages collab chat (Num (chat_unreadCount chat)) ;;
    let unreadMessages := filter not_fromMe messages in
    if (0 <? List.length unreadMessages)%nat then
      ret (push allUnreadMessages
             (mkUnreadEntry (chat_id chat) (chat_name chat)
                (chat_isGroup chat)
                (Z.of_nat (List.length unreadMessages))
                unreadMessages))
    else ret allUnreadMessages
  else ret allUnreadMessages.

Definition unread_fetches (chats : list Chat) : list Call :=
  map (fun chat => CFetchMessages (chat_id chat) (Num (chat_unreadCount chat)))
      (filter is_unread chats).





(** The body of the loop of searchMessages, under a name. *)
Definition search_step (query : string) (limit : JSNum) (chat : Chat)
  (results : list SearchEntry) : M (list SearchEntry) :=
  messages <- fetchMessages collab chat limit ;;
  let matches := search_filter query messages in
  if (0 <? List.length matches)%nat then
    ret (push results
           (mkSearchEntry (chat_id chat) (chat_name chat)
              (chat_isGroup chat) matches))
  else ret results.


Definition limit_of (options : SearchOptions) : JSNum :=
  match so_limit options with
  | Some l => l
  | None => Num 50
  end.

(** Spec, markAllRead: one outcome per unread chat, success or failure. *)
Definition mark_result_of (chat : Chat) : MarkResult :=
  match c_sendSeen collab chat with
  | Ok _ => mkMarkResult (chat_id chat) (chat_name chat) true None
  | Throw e => mkMarkResult (chat_id chat) (chat_name chat) false (Some e)
  end.

(** The body of the loop of markAllChatsAsRead, under a name. *)
Definition mark_step (chat : Chat) (results : list MarkResult)
  : M (list MarkResult) :=
  try_catch
    (sendSeen collab chat ;;;
     ret (push results
            (mkMarkResult (chat_id chat) (chat_name chat) true None)))
    (fun error_message =>
       ret (push results
              (mkMarkResult (chat_id chat) (chat_name chat) false
                 (Some error_message)))).

Definition seen_calls (chats : list Chat) : list Call :=
  map (fun chat => CSendSeen (chat_id chat)) (filter is_unread chats).

End Specification.

(** Sum of the unread counts of a list of chats. *)
Definition total_unread (chats : list Chat) : Z :=
  fold_right Z.add 0 (map chat_unreadCount chats).

(** An operation refused for lack of readiness: the "not ready" error, and
    the world (its call log included) left as it was. *)
Definition fails_not_ready {A} (op : M A) (w : World) : Prop :=
  op w = (Throw not_ready_msg, w).

(** The 503 answer of the readiness gate. *)
Definition not_ready_response (w : World) : Response :=
  mkResponse 503
    (JObject [("success", JBool false);
              ("error", JString not_ready_error);
              ("qrAvailable", JBool (is_not_null (lastQRCode w)))]).

Definition bad_request (error : string) : Response :=
  mkResponse 400 (JObject [("success", JBool false); ("error", JString error)]).

(** The body of the answer of GET /api/unread-chats for the given unread
    chats. *)
Definition unread_chats_body (unreadChats : list Chat) : json :=
  JObject [("success", JBool true);
           ("count", JNumber (Z.of_nat (List.length unreadChats)));
           ("totalUnread", JNumber (total_unread unreadChats));
           ("data",
            JArray (map (fun chat => json_unread_chat (view_unread_chat chat))
                        unreadChats))].

(** ** A small account, for the examples *)

Definition text_message (id body from : string) (fromMe : bool) (t : Z)
  : Message :=
  mkMessage id body "chat" t from "me@c.us" fromMe false false false.

Definition a1 : Message := text_message "a1" "Lunch at NOON?" "alice@c.us" false 100.
Definition a2 : Message := text_message "a2" "Sure" "me@c.us" true 101.
Definition a3 : Message := text_message "a3" "Great, see you" "alice@c.us" false 102.
Definition b1 : Message := text_message "b1" "old news" "bob@c.us" false 50.
Definition t1 : Message :=
  mkMessage "t1" "" "image" 90 "team@g.us" "me@c.us" false true false false.

Definition team : Chat :=
  mkChat "team@g.us" "Team" true false 1 90 false false (Some t1).
Definition bob : Chat :=
  mkChat "bob@c.us" "Bob" false false 0 50 false false (Some b1).
Definition alice : Chat :=
  mkChat "alice@c.us" "Alice" false false 2 102 false true (Some a3).

Definition demo_chats : list Chat := [team; bob; alice].

Definition history (chat : Chat) : list Message :=
  if String.eqb (chat_id chat) "alice@c.us" then [a1; a2; a3]
  else if String.eqb (chat_id chat) "bob@c.us" then [b1]
  else if String.eqb (chat_id chat) "team@g.us" then [t1]
  else [].

(** The [n] last elements of a list. *)
Definition lastn {A} (n : nat) (xs : list A) : list A :=
  skipn (List.length xs - n) xs.

Definition demo_fetch (chat : Chat) (limit : JSNum) : Result (list Message) :=
  match limit with
  | Num n => if 0 <? n then Ok (lastn (Z.to_nat n) (history chat))
             else Ok (history chat)
  | NaN => Ok (history chat)
  end.

Definition demo_find (chatId : string) : Result Chat :=
  match find (fun chat => String.eqb (chat_id chat) chatId) demo_chats with
  | Some chat => Ok chat
  | None => Throw "chat not found"
  end.

Definition demo_sent (to content : string) : Message :=
  mkMessage "sent-1" content "chat" 200 "me@c.us" to true false false false.

(** Read receipts fail on the group chat only. *)
Definition demo_collab : Collaborator :=
  mkCollaborator
    (Ok demo_chats)
    demo_find
    demo_fetch
    (fun chat => if chat_isGroup chat then Throw "Evaluation failed" else Ok tt)
    (fun chat content => Ok (demo_sent (chat_id chat) content))
    (fun to content => Ok (demo_sent to content))
    (fun _ => Throw "contact not found")
    (Ok [])
    (Ok tt)
    (Ok tt).

Definition demo_info : ClientInfo :=
  mkClientInfo "Me" "15550100" "15550100@c.us" "android" "15550100@c.us".

Definition world0 : World := mkWorld false false None None None [].

(** After [initialize] and a first QR code: not ready, a code pending. *)
Definition demo_pairing : World :=
  on_event (EvQr "QR-1") (snd (initialize world0)).

(** After the 'ready' event. *)
Definition demo_ready : World := on_event (EvReady demo_info) demo_pairing.

(** ** Vocabulary of the further properties *)

(** An operation that leaves the world as it was, but for the calls it
    logs. *)
Definition only_logs {A} (m : M A) : Prop :=
  forall w, exists cs, snd (m w) = log_all cs w.

(** Every response the handler returns passes the test [P]. *)
Definition answers (P : Response -> bool) (m : M Response) : Prop :=
  forall w r w', m w = (Ok r, w') -> P r = true.

Fixpoint lookup_field (name : string) (fields : list (string * json))
  : option json :=
  match fields with
  | [] => None
  | (k, v) :: rest => if String.eqb k name then Some v else lookup_field name rest
  end.

(** The [success] field of a response body, when it is a boolean. *)
Definition success_of (r : Response) : option bool :=
  match body r with
  | JObject fields =>
      match lookup_field "success" fields with
      | Some (JBool b) => Some b
      | _ => None
      end
  | _ => None
  end.

Definition field_of (name : string) (r : Response) : option json :=
  match body r with
  | JObject fields => lookup_field name fields
  | _ => None
  end.

(** Status 200 with [success: true]. *)
Definition is_success (r : Response) : bool :=
  (status r =? 200)
  && match success_of r with Some true => true | _ => false end.

(** The requests the handlers themselves answer 400: a required body or
    query field is missing or empty. *)
Definition invalid_input (r : Request) : bool :=
  match r with
  | PostSendMessage chatId message =>
      negb (truthy_field chatId) || negb (truthy_field message)
  | PostSendMessageToSelf message => negb (truthy_field message)
  | GetSearch query _ _ => negb (truthy_field query)
  | _ => false
  end.

Definition is_unmatched (r : Request) : bool :=
  match r with
  | Unmatched _ => true
  | _ => false
  end.

(** The worlds the process can be in: from the initial one, by
    [initialize], by events of the external client, by [logout] and
    [destroy], and by serving requests. *)
Inductive Reachable (collab : Collaborator) : World -> Prop :=
| reach_start : Reachable collab world0
| reach_initialize w :
    Reachable collab w -> Reachable collab (snd (initialize w))
| reach_event w e :
    Reachable collab w -> Reachable collab (on_event e w)
| reach_logout w :
    Reachable collab w -> Reachable collab (snd (logout collab w))
| reach_destroy w :
    Reachable collab w -> Reachable collab (snd (destroy collab w))
| reach_request w r :
    Reachable collab w -> Reachable collab (snd (app collab r w)).


(** A collaborator on which every call is rejected. *)
Definition failing_collab : Collaborator :=
  mkCollaborator
    (Throw "Evaluation failed")
    (fun _ => Throw "Evaluation failed")
    (fun _ _ => Throw "Evaluation failed")
    (fun _ => Throw "Evaluation failed")
    (fun _ _ => Throw "Evaluation failed")
    (fun _ _ => Throw "Evaluation failed")
    (fun _ => Throw "Evaluation failed")
    (Throw "Evaluation failed")
    (Throw "Evaluation failed")
    (Throw "Evaluation failed").

(** The answer of the error-handling middleware to a rejection. *)
Definition server_error (message : string) : Response :=
  mkResponse 500
    (JObject [("success", JBool false);
              ("error", JString "Internal server error");
              ("message", JString message)]).

(** Did the read receipt of the chat go through. *)
Definition seen_ok (collab : Collaborator) (chat : Chat) : bool :=
  match c_sendSeen collab chat with
  | Ok _ => true
  | Throw _ => false
  end.

(** A collaborator on which fetching from a group chat is rejected. *)
Definition flaky_collab : Collaborator :=
  mkCollaborator
    (Ok [alice; team; bob])
    demo_find
    (fun chat limit =>
       if chat_isGroup chat then Throw "Evaluation failed"
       else demo_fetch chat limit)
    (fun _ => Ok tt)
    (fun chat content => Ok (demo_sent (chat_id chat) content))
    (fun to content => Ok (demo_sent to content))
    (fun _ => Throw "contact not found")
    (Ok [])
    (Ok tt)
    (Ok tt).

(** * Properties *)

(** ** The call log *)

Lemma log_all_nil (w : World) : log_all [] w = w.
Proof. reflexivity. Qed.

Lemma log_all_cons (c : Call) (cs : list Call) (w : World) :
  log_all (c :: cs) w = log_all cs (log c w).
Proof. reflexivity. Qed.

Lemma log_all_app (cs ds : list Call) (w : World) :
  log_all (cs ++ ds) w = log_all ds (log_all cs w).
Proof. unfold log_all. apply fold_left_app. Qed.

Lemma calls_log_all (cs : list Call) (w : World) :
  calls (log_all cs w) = (calls w ++ cs)%list.
Proof.
  revert w. induction cs as [|c cs IH]; intro w.
  - simpl. now rewrite app_nil_r.
  - rewrite log_all_cons, IH. simpl. now rewrite <- app_assoc.
Qed.

Lemma isReady_log_all (cs : list Call) (w : World) :
  isReady (log_all cs w) = isReady w.
Proof.
  revert w. induction cs as [|c cs IH]; intro w; [reflexivity|].
  rewrite log_all_cons, IH. reflexivity.
Qed.

Lemma lastQRCode_log_all (cs : list Call) (w : World) :
  lastQRCode (log_all cs w) = lastQRCode w.
Proof.
  revert w. induction cs as [|c cs IH]; intro w; [reflexivity|].
  rewrite log_all_cons, IH. reflexivity.
Qed.

(** ** Running the monad *)

Lemma bind_ok {A B} (m : M A) (k : A -> M B) {w w' : World} {a : A} :
  m w = (Ok a, w') -> bind m k w = k a w'.
Proof. intro H. unfold bind. now rewrite H. Qed.

Lemma bind_throw {A B} (m : M A) (k : A -> M B) {w w' : World} {e : string} :
  m w = (Throw e, w') -> bind m k w = (Throw e, w').
Proof. intro H. unfold bind. now rewrite H. Qed.

Lemma bind_ok_inv {A B} (m : M A) (k : A -> M B) (w w2 : World) (b : B) :
  bind m k w = (Ok b, w2) ->
  exists a w1, m w = (Ok a, w1) /\ k a w1 = (Ok b, w2).
Proof.
  unfold bind. destruct (m w) as [[a|e] w1]; intro H.
  - now exists a, w1.
  - discriminate.
Qed.

Lemma check_ready_ok (w : World) :
  isReady w = true -> check_ready w = (Ok tt, w).
Proof. intro H. unfold check_ready. now rewrite H. Qed.

Lemma check_ready_fails (w : World) :
  isReady w = false -> check_ready w = (Throw not_ready_msg, w).
Proof. intro H. unfold check_ready. now rewrite H. Qed.

Lemma gated_fails {A} (k : M A) (w : World) :
  isReady w = false -> fails_not_ready (check_ready ;;; k) w.
Proof.
  intro H. unfold fails_not_ready.
  apply bind_throw, check_ready_fails, H.
Qed.

Lemma bind_fails {A B} (m : M A) (k : A -> M B) (w : World) :
  fails_not_ready m w -> fails_not_ready (bind m k) w.
Proof. unfold fails_not_ready. apply bind_throw. Qed.

Section AdapterFacts.

Variable collab : Collaborator.

Lemma getChats_ready (w : World) :
  isReady w = true ->
  getChats collab w = (c_getChats collab, log CGetChats w).
Proof.
  intro H. unfold getChats.
  rewrite (bind_ok _ _ (check_ready_ok _ H)). reflexivity.
Qed.

Lemma getChatById_ready (chatId : string) (w : World) :
  isReady w = true ->
  getChatById collab chatId w
  = (c_getChatById collab chatId, log (CGetChatById chatId) w).
Proof.
  intro H. unfold getChatById.
  rewrite (bind_ok _ _ (check_ready_ok _ H)). reflexivity.
Qed.

Lemma getChats_not_ready (w : World) :
  isReady w = false -> fails_not_ready (getChats collab) w.
Proof. apply gated_fails. Qed.

Lemma getChatById_not_ready (chatId : string) (w : World) :
  isReady w = false -> fails_not_ready (getChatById collab chatId) w.
Proof. apply gated_fails. Qed.

Lemma getChats_ok_inv (w w' : World) (chats : list Chat) :
  getChats collab w = (Ok chats, w') ->
  isReady w = true /\ c_getChats collab = Ok chats /\ w' = log CGetChats w.
Proof.
  intro H. destruct (isReady w) eqn:R.
  - rewrite (getChats_ready _ R) in H. inversion H. auto.
  - rewrite (getChats_not_ready _ R) in H. discriminate.
Qed.


Lemma fetched_ok (limit : JSNum) (chat : Chat) (messages : list Message) :
  c_fetchMessages collab chat limit = Ok messages ->
  fetched collab limit chat = messages.
Proof. intro H. unfold fetched. now rewrite H. Qed.

End AdapterFacts.

(** ** getAllUnreadMessages *)

Section UnreadMessages.

Variable collab : Collaborator.

Lemma getAllUnreadMessages_unfold :
  getAllUnreadMessages collab
  = (chats <- getChats collab ;; for_of chats [] (unread_step collab)).
Proof. reflexivity. Qed.

Lemma spec_unread_cons_skip (chat : Chat) (chats : list Chat) :
  is_unread chat = false ->
  spec_listAllUnreadMessages collab (chat :: chats)
  = spec_listAllUnreadMessages collab chats.
Proof.
  intro H. unfold spec_listAllUnreadMessages. simpl. now rewrite H.
Qed.

Lemma spec_unread_cons_empty (chat : Chat) (chats : list Chat) :
  is_unread chat = true -> unread_of collab chat = [] ->
  spec_listAllUnreadMessages collab (chat :: chats)
  = spec_listAllUnreadMessages collab chats.
Proof.
  intros H E. unfold spec_listAllUnreadMessages. simpl. rewrite H. simpl.
  unfold has_unread at 1. now rewrite E.
Qed.

Lemma spec_unread_cons_entry (chat : Chat) (chats : list Chat) :
  is_unread chat = true -> unread_of collab chat <> [] ->
  spec_listAllUnreadMessages collab (chat :: chats)
  = unread_entry_of collab chat :: spec_listAllUnreadMessages collab chats.
Proof.
  intros H E. unfold spec_listAllUnreadMessages. simpl. rewrite H. simpl.
  unfold has_unread at 1. destruct (unread_of collab chat); [easy|reflexivity].
Qed.

Lemma unread_fetches_cons (chat : Chat) (chats : list Chat) :
  unread_fetches (chat :: chats)
  = if is_unread chat
    then CFetchMessages (chat_id chat) (Num (chat_unreadCount chat))
         :: unread_fetches chats
    else unread_fetches chats.
Proof. unfold unread_fetches. simpl. now destruct (is_unread chat). Qed.

(** One turn of the loop on a chat that is skipped. *)
Lemma unread_step_skip chat acc w :
  is_unread chat = false -> unread_step collab chat acc w = (Ok acc, w).
Proof. unfold is_unread, unread_step. now intros ->. Qed.

(** One turn of the loop on an unread chat whose fetch is answered. *)
Lemma unread_step_fetch chat acc w messages :
  is_unread chat = true ->
  c_fetchMessages collab chat (Num (chat_unreadCount chat)) = Ok messages ->
  unread_step collab chat acc w
  = (Ok (match unread_of collab chat with
         | [] => acc
         | _ :: _ => push acc (unread_entry_of collab chat)
         end),
     log (CFetchMessages (chat_id chat) (Num (chat_unreadCount chat))) w).
Proof.
  unfold is_unread, unread_step. intros -> Hm.
  unfold bind, fetchMessages, call. rewrite Hm.
  unfold unread_entry_of, unread_of. rewrite (fetched_ok _ _ _ _ Hm).
  now destruct (filter not_fromMe messages).
Qed.

(** The loop of getAllUnreadMessages, run from any accumulator. *)
Lemma unread_loop_run (chats : list Chat) :
  forall (acc : list UnreadEntry) (w : World),
    Forall (unread_fetch_ok collab) (filter is_unread chats) ->
    for_of chats acc (unread_step collab) w
    = (Ok (acc ++ spec_listAllUnreadMessages collab chats)%list,
       log_all (unread_fetches chats) w).
Proof.
  induction chats as [|chat chats IH]; intros acc w Hall.
  - simpl. now rewrite app_nil_r.
  - simpl for_of. rewrite unread_fetches_cons.
    simpl in Hall. destruct (is_unread chat) eqn:U.
    + inversion Hall as [|? ? [messages Hm] Hrest]; subst.
      rewrite (bind_ok _ _ (unread_step_fetch _ _ _ _ U Hm)).
      rewrite IH by assumption. rewrite log_all_cons.
      destruct (unread_of collab chat) as [|m ms] eqn:E.
      * now rewrite spec_unread_cons_empty.
      * rewrite spec_unread_cons_entry; [|assumption|now rewrite E].
        unfold push. now rewrite <- app_assoc.
    + rewrite (bind_ok _ _ (unread_step_skip _ _ _ U)).
      rewrite IH by assumption. now rewrite spec_unread_cons_skip.
Qed.

(** A rejected fetch rejects the whole operation: a result means that
    every fetch was answered. *)
Lemma unread_loop_ok_inv (chats : list Chat) :
  forall (acc res : list UnreadEntry) (w w' : World),
    for_of chats acc (unread_step collab) w = (Ok res, w') ->
    Forall (unread_fetch_ok collab) (filter is_unread chats).
Proof.
  induction chats as [|chat chats IH]; intros acc res w w' H.
  - constructor.
  - simpl in H. apply bind_ok_inv in H. destruct H as (acc1 & w1 & Hb & Hk).
    simpl. destruct (is_unread chat) eqn:U.
    + constructor; [|exact (IH _ _ _ _ Hk)].
      unfold unread_step in Hb. unfold is_unread in U. rewrite U in Hb.
      apply bind_ok_inv in Hb. destruct Hb as (ms & w2 & Hf & _).
      unfold fetchMessages, call in Hf. inversion Hf.
      now exists ms.
    + exact (IH _ _ _ _ Hk).
Qed.

Lemma unread_of_not_fromMe (chat : Chat) :
  Forall (fun msg => msg_fromMe msg = false) (unread_of collab chat).
Proof.
  unfold unread_of. apply Forall_forall. intros msg Hin.
  apply filter_In in Hin. destruct Hin as [_ Hf].
  unfold not_fromMe in Hf. now apply negb_true_iff in Hf.
Qed.

Lemma in_spec_unread (chats : list Chat) (e : UnreadEntry) :
  In e (spec_listAllUnreadMessages collab chats) <->
  exists chat, In chat chats /\ 0 < chat_unreadCount chat
               /\ unread_of collab chat <> []
               /\ e = unread_entry_of collab chat.
Proof.
  unfold spec_listAllUnreadMessages. rewrite in_map_iff. split.
  - intros (chat & He & Hin). apply filter_In in Hin. destruct Hin as [Hin Hh].
    apply filter_In in Hin. destruct Hin as [Hin Hu].
    exists chat. repeat split; auto.
    + unfold is_unread in Hu. now apply Z.gtb_lt in Hu.
    + unfold has_unread in Hh. now destruct (unread_of collab chat).
  - intros (chat & Hin & Hu & Hne & He). exists chat. split; [auto|].
    apply filter_In. split.
    + apply filter_In. split; [auto|]. unfold is_unread. now apply Z.gtb_lt.
    + unfold has_unread. now destruct (unread_of collab chat).
Qed.

(** Every run of getAllUnreadMessages that returns, described. *)
Lemma getAllUnreadMessages_ok_inv (w w' : World) (res : list UnreadEntry) :
  getAllUnreadMessages collab w = (Ok res, w') ->
  exists chats,
    isReady w = true /\ c_getChats collab = Ok chats
    /\ Forall (unread_fetch_ok collab) (filter is_unread chats)
    /\ res = spec_listAllUnreadMessages collab chats
    /\ w' = log_all (CGetChats :: unread_fetches chats) w.
Proof.
  rewrite getAllUnreadMessages_unfold. intro H.
  apply bind_ok_inv in H. destruct H as (chats & w1 & Hg & Hl).
  apply getChats_ok_inv in Hg. destruct Hg as (R & Hc & ->).
  exists chats. pose proof (unread_loop_ok_inv _ _ _ _ _ Hl) as Hall.
  rewrite (unread_loop_run _ _ _ Hall) in Hl. inversion Hl.
  repeat split; auto.
Qed.

Lemma getAllUnreadMessages_run (w : World) (chats : list Chat) :
  isReady w = true -> c_getChats collab = Ok chats ->
  Forall (unread_fetch_ok collab) (filter is_unread chats) ->
  getAllUnreadMessages collab w
  = (Ok (spec_listAllUnreadMessages collab chats),
     log_all (CGetChats :: unread_fetches chats) w).
Proof.
  intros R Hc Hall. rewrite getAllUnreadMessages_unfold.
  assert (Hg : getChats collab w = (Ok chats, log CGetChats w))
    by (rewrite getChats_ready by assumption; now rewrite Hc).
  rewrite (bind_ok _ _ Hg). now rewrite unread_loop_run.
Qed.

End UnreadMessages.

Lemma filter_length_le_Z {A} (f : A -> bool) (xs : list A) :
  Z.of_nat (List.length (filter f xs)) <= Z.of_nat (List.length xs).
Proof. apply Nat2Z.inj_le, filter_length_le. Qed.

Lemma unread_of_fetch (collab : Collaborator) (chat : Chat) :
  unread_fetch_ok collab chat ->
  exists messages,
    c_fetchMessages collab chat (Num (chat_unreadCount chat)) = Ok messages
    /\ unread_of collab chat = filter not_fromMe messages.
Proof.
  intros [messages Hm]. exists messages. split; [assumption|].
  unfold unread_of. now rewrite (fetched_ok _ _ _ _ Hm).
Qed.

(** C1. getAllUnreadMessages, when the adapter is ready and the collaborator
    answers, returns the entries of [spec_listAllUnreadMessages]: one entry
    per chat with unreadCount > 0 whose fetch (limit = that chat's
    unreadCount), once the messages with fromMe are filtered out, is not
    empty; the chats whose filtered list is empty have no entry; the calls
    made are getChats and one fetchMessages per unread chat; and every run
    that returns is such a run, so that no message of the result is
    fromMe. *)
Theorem getAllUnreadMessages_spec (collab : Collaborator) (w : World) :
  (forall chats,
      isReady w = true -> c_getChats collab = Ok chats ->
      Forall (unread_fetch_ok collab) (filter is_unread chats) ->
      getAllUnreadMessages collab w
      = (Ok (spec_listAllUnreadMessages collab chats),
         log_all (CGetChats :: unread_fetches chats) w))
  /\
  (forall res w',
      getAllUnreadMessages collab w = (Ok res, w') ->
      exists chats,
        c_getChats collab = Ok chats
        /\ res = spec_listAllUnreadMessages collab chats
        /\ (forall e,
               In e res <->
               exists chat messages,
                 In chat chats /\ 0 < chat_unreadCount chat
                 /\ c_fetchMessages collab chat (Num (chat_unreadCount chat))
                    = Ok messages
                 /\ filter not_fromMe messages <> []
                 /\ e = mkUnreadEntry (chat_id chat) (chat_name chat)
                          (chat_isGroup chat)
                          (Z.of_nat (List.length (filter not_fromMe messages)))
                          (filter not_fromMe messages))
        /\ (forall e msg,
               In e res -> In msg (ue_messages e) -> msg_fromMe msg = false)).
Proof.
  split.
  - intros chats R Hc Hall. now apply getAllUnreadMessages_run.
  - intros res w' H.
    apply getAllUnreadMessages_ok_inv in H.
    destruct H as (chats & R & Hc & Hall & -> & ->).
    exists chats. split; [assumption|]. split; [reflexivity|]. split.
    + intro e. rewrite in_spec_unread. split.
      * intros (chat & Hin & Hu & Hne & ->).
        assert (Hok : unread_fetch_ok collab chat).
        { rewrite Forall_forall in Hall. apply Hall, filter_In.
          split; [assumption|]. unfold is_unread. now apply Z.gtb_lt. }
        destruct (unread_of_fetch _ _ Hok) as (messages & Hm & Hf).
        exists chat, messages. unfold unread_entry_of. rewrite Hf in *.
        repeat split; auto.
      * intros (chat & messages & Hin & Hu & Hm & Hne & ->).
        exists chat. unfold unread_entry_of, unread_of.
        rewrite (fetched_ok _ _ _ _ Hm). repeat split; auto.
    + intros e msg He Hmsg. apply in_spec_unread in He.
      destruct He as (chat & _ & _ & _ & ->). simpl in Hmsg.
      pose proof (unread_of_not_fromMe collab chat) as Hn.
      rewrite Forall_forall in Hn. now apply Hn.
Qed.

Lemma getAllUnreadMessages_spec_witness :
  getAllUnreadMessages demo_collab demo_ready
  = (Ok [mkUnreadEntry "team@g.us" "Team" true 1 [t1];
         mkUnreadEntry "alice@c.us" "Alice" false 1 [a3]],
     log_all [CGetChats; CFetchMessages "team@g.us" (Num 1);
              CFetchMessages "alice@c.us" (Num 2)] demo_ready).
Proof.
  apply (proj1 (getAllUnreadMessages_spec demo_collab demo_ready) demo_chats).
  - reflexivity.
  - reflexivity.
  - repeat constructor; eexists; reflexivity.
Defined.

(** C9. In every entry of the getAllUnreadMessages result, the unreadCount
    field is the length of the entry's messages array, i.e. the count left
    after the fromMe messages are filtered out; with a collaborator that
    keeps to the limit it is never more than the chat's own unreadCount,
    and it can be strictly less. *)
Theorem unreadCount_is_filtered_length :
  (forall collab w res w',
      getAllUnreadMessages collab w = (Ok res, w') ->
      forall e, In e res ->
        ue_unreadCount e = Z.of_nat (List.length (ue_messages e))
        /\ exists chats chat,
             c_getChats collab = Ok chats /\ In chat chats
             /\ e = unread_entry_of collab chat
             /\ (honours_limit collab ->
                 ue_unreadCount e <= chat_unreadCount chat))
  /\
  (exists res w' e,
      getAllUnreadMessages demo_collab demo_ready = (Ok res, w')
      /\ In alice demo_chats /\ In e res
      /\ e = unread_entry_of demo_collab alice
      /\ ue_unreadCount e < chat_unreadCount alice).
Proof.
  split.
  - intros collab w res w' H e He.
    apply getAllUnreadMessages_ok_inv in H.
    destruct H as (chats & R & Hc & Hall & -> & ->).
    apply in_spec_unread in He.
    destruct He as (chat & Hin & Hu & Hne & ->).
    split; [reflexivity|].
    exists chats, chat. repeat split; auto.
    intro Hlim. simpl.
    assert (Hok : unread_fetch_ok collab chat).
    { rewrite Forall_forall in Hall. apply Hall, filter_In.
      split; [assumption|]. unfold is_unread. now apply Z.gtb_lt. }
    destruct (unread_of_fetch _ _ Hok) as (messages & Hm & ->).
    pose proof (Hlim chat _ messages Hu Hm).
    pose proof (filter_length_le_Z not_fromMe messages). lia.
  - eexists; eexists; eexists. split; [reflexivity|].
    split; [simpl; auto|]. split; [right; left; reflexivity|].
    split; reflexivity.
Qed.

Lemma unreadCount_is_filtered_length_witness :
  ue_unreadCount (mkUnreadEntry "alice@c.us" "Alice" false 1 [a3])
  = Z.of_nat (List.length
                (ue_messages (mkUnreadEntry "alice@c.us" "Alice" false 1 [a3]))).
Proof.
  refine (proj1 (proj1 unreadCount_is_filtered_length
                   demo_collab demo_ready _ _ eq_refl _ _)).
  right; left; reflexivity.
Defined.

(** ** getUnreadMessagesFromChat *)



(** ** markAllChatsAsRead *)

Section MarkAllRead.

Variable collab : Collaborator.

Lemma markAllChatsAsRead_unfold :
  markAllChatsAsRead collab
  = (chats <- getChats collab ;;
     for_of (filter is_unread chats) [] (mark_step collab)).
Proof. reflexivity. Qed.

(** One turn of the loop never throws, whatever [sendSeen] does. *)
Lemma mark_step_run (chat : Chat) (results : list MarkResult) (w : World) :
  mark_step collab chat results w
  = (Ok (push results (mark_result_of collab chat)),
     log (CSendSeen (chat_id chat)) w).
Proof.
  unfold mark_step, try_catch, bind, sendSeen, call, ret, mark_result_of.
  now destruct (c_sendSeen collab chat).
Qed.

Lemma mark_loop_run (chats : list Chat) :
  forall (results : list MarkResult) (w : World),
    for_of chats results (mark_step collab) w
    = (Ok (results ++ map (mark_result_of collab) chats)%list,
       log_all (map (fun chat => CSendSeen (chat_id chat)) chats) w).
Proof.
  induction chats as [|chat chats IH]; intros results w.
  - simpl. now rewrite app_nil_r.
  - simpl for_of. rewrite (bind_ok _ _ (mark_step_run chat results w)).
    rewrite IH. unfold push. now rewrite <- app_assoc.
Qed.

Lemma markAllChatsAsRead_run (w : World) (chats : list Chat) :
  isReady w = true -> c_getChats collab = Ok chats ->
  markAllChatsAsRead collab w
  = (Ok (map (mark_result_of collab) (filter is_unread chats)),
     log_all (CGetChats :: seen_calls chats) w).
Proof.
  intros R Hc. rewrite markAllChatsAsRead_unfold.
  assert (Hg : getChats collab w = (Ok chats, log CGetChats w))
    by (rewrite getChats_ready by assumption; now rewrite Hc).
  rewrite (bind_ok _ _ Hg). now rewrite mark_loop_run.
Qed.

Lemma mark_result_of_outcome (chat : Chat) :
  mr_chatId (mark_result_of collab chat) = chat_id chat
  /\ mr_chatName (mark_result_of collab chat) = chat_name chat
  /\ match c_sendSeen collab chat with
     | Ok _ => mr_success (mark_result_of collab chat) = true
               /\ mr_error (mark_result_of collab chat) = None
     | Throw e => mr_success (mark_result_of collab chat) = false
                  /\ mr_error (mark_result_of collab chat) = Some e
     end.
Proof.
  unfold mark_result_of. now destruct (c_sendSeen collab chat).
Qed.

End MarkAllRead.

(** C3. With the adapter ready and the chat list obtained,
    markAllChatsAsRead returns one entry per chat with unreadCount > 0, in
    order (so the result is as long as the list of unread chats); the read
    receipt is attempted once on each of them whatever the outcome on the
    others; and the entry of a chat records success, or failure with the
    error message, of its own attempt. *)
Theorem markAllChatsAsRead_spec
  (collab : Collaborator) (w : World) (chats : list Chat) :
  isReady w = true ->
  c_getChats collab = Ok chats ->
  exists results w',
    markAllChatsAsRead collab w = (Ok results, w')
    /\ List.length results = List.length (filter is_unread chats)
    /\ calls w' = (calls w ++ CGetChats :: seen_calls chats)%list
    /\ Forall2
         (fun chat r =>
            mr_chatId r = chat_id chat
            /\ mr_chatName r = chat_name chat
            /\ match c_sendSeen collab chat with
               | Ok _ => mr_success r = true /\ mr_error r = None
               | Throw e => mr_success r = false /\ mr_error r = Some e
               end)
         (filter is_unread chats) results
    /\ (forall chat,
           In chat chats -> 0 < chat_unreadCount chat ->
           In (CSendSeen (chat_id chat)) (calls w')).
Proof.
  intros R Hc. eexists. eexists.
  split; [exact (markAllChatsAsRead_run collab w chats R Hc)|].
  split; [now rewrite length_map|].
  split; [now rewrite calls_log_all|].
  split.
  - induction (filter is_unread chats) as [|chat l IH]; simpl; constructor.
    + apply mark_result_of_outcome.
    + exact IH.
  - intros chat Hin Hu. rewrite calls_log_all.
    apply in_or_app. right. right. unfold seen_calls.
    apply in_map_iff. exists chat. split; [reflexivity|].
    apply filter_In. split; [assumption|].
    unfold is_unread. now apply Z.gtb_lt.
Qed.

Lemma markAllChatsAsRead_spec_witness :
  exists results w',
    markAllChatsAsRead demo_collab demo_ready = (Ok results, w')
    /\ List.length results = 2%nat
    /\ map mr_success results = [false; true]
    /\ In (CSendSeen "alice@c.us") (calls w').
Proof.
  destruct (markAllChatsAsRead_spec demo_collab demo_ready demo_chats
              eq_refl eq_refl)
    as (results & w' & Hrun & Hlen & Hcalls & Hall & Hseen).
  exists results, w'. split; [exact Hrun|]. split; [exact Hlen|]. split.
  - vm_compute in Hrun. inversion Hrun. reflexivity.
  - apply (Hseen alice); [right; right; left; reflexivity | reflexivity].
Defined.

(** ** getUnreadChats and GET /api/unread-chats *)

Lemma fold_left_sum_shift {A} (f : A -> Z) (xs : list A) (z : Z) :
  fold_left (fun sum x => sum + f x) xs z
  = z + fold_right Z.add 0 (map f xs).
Proof.
  revert z. induction xs as [|x xs IH]; intro z; simpl.
  - lia.
  - rewrite IH. lia.
Qed.

Lemma reduce_sum_views (chats : list Chat) :
  reduce_sum uc_unreadCount (map view_unread_chat chats) = total_unread chats.
Proof.
  unfold reduce_sum, total_unread. rewrite fold_left_sum_shift.
  rewrite map_map. reflexivity.
Qed.

Lemma getUnreadChats_run (collab : Collaborator) (w : World) (chats : list Chat) :
  isReady w = true -> c_getChats collab = Ok chats ->
  getUnreadChats collab w = (Ok (filter is_unread chats), log CGetChats w).
Proof.
  intros R Hc. unfold getUnreadChats.
  assert (Hg : getChats collab w = (Ok chats, log CGetChats w))
    by (rewrite getChats_ready by assumption; now rewrite Hc).
  now rewrite (bind_ok _ _ Hg).
Qed.

Lemma requireClient_ready (next : M Response) (w : World) :
  isReady w = true -> requireClient next w = next w.
Proof.
  intro R. unfold requireClient, bind, isClientReady, get. now rewrite R.
Qed.

Lemma requireClient_not_ready (next : M Response) (w : World) :
  isReady w = false -> requireClient next w = (Ok (not_ready_response w), w).
Proof.
  intro R. unfold requireClient, bind, isClientReady, get. now rewrite R.
Qed.

(** C4. With the adapter ready and the chat list obtained, getUnreadChats
    returns exactly the chats with unreadCount > 0, in order; GET
    /api/unread-chats answers 200 with these chats and with totalUnread the
    sum of their unreadCount; for chats A (unread 2) and B (unread 0) only A
    is returned and totalUnread is 2. *)
Theorem getUnreadChats_spec
  (collab : Collaborator) (w : World) (chats : list Chat) :
  isReady w = true ->
  c_getChats collab = Ok chats ->
  getUnreadChats collab w = (Ok (filter is_unread chats), log CGetChats w)
  /\ (forall chat,
         In chat (filter is_unread chats)
         <-> In chat chats /\ 0 < chat_unreadCount chat)
  /\ app collab GetUnreadChats w
     = (mkResponse 200 (unread_chats_body (filter is_unread chats)),
        log CGetChats w)
  /\ (forall A B,
         chats = [A; B] -> chat_unreadCount A = 2 -> chat_unreadCount B = 0 ->
         filter is_unread chats = [A]
         /\ total_unread (filter is_unread chats) = 2).
Proof.
  intros R Hc. split; [now apply getUnreadChats_run|]. split; [|split].
  - intro chat. rewrite filter_In. unfold is_unread.
    now rewrite Z.gtb_lt.
  - unfold app, error_middleware, route.
    rewrite requireClient_ready by assumption.
    unfold unread_chats_route.
    rewrite (bind_ok _ _ (getUnreadChats_run collab w chats R Hc)).
    unfold ret, res_json, unread_chats_body, count.
    rewrite reduce_sum_views, !length_map, map_map. reflexivity.
  - intros A B -> HA HB. unfold total_unread, is_unread. simpl.
    rewrite HA, HB. simpl. rewrite HA. split; reflexivity.
Qed.

Lemma getUnreadChats_spec_witness :
  getUnreadChats demo_collab demo_ready
  = (Ok [team; alice], log CGetChats demo_ready)
  /\ status (fst (app demo_collab GetUnreadChats demo_ready)) = 200.
Proof.
  destruct (getUnreadChats_spec demo_collab demo_ready demo_chats
              eq_refl eq_refl) as (Hrun & _ & Happ & _).
  split; [exact Hrun|]. rewrite Happ. reflexivity.
Defined.

(** ** The readiness gate *)

(** C5. On every route registered with requireClient, a request that
    arrives while the adapter is not ready is answered 503 with
    success = false and qrAvailable telling whether a pairing code is
    pending (lastQRCode is not null); the world, and with it the log of
    calls to the collaborator, is left as it was. *)
Theorem readiness_gate (collab : Collaborator) (r : Request) (w : World) :
  is_data_route r = true ->
  isReady w = false ->
  app collab r w = (not_ready_response w, w)
  /\ status (fst (app collab r w)) = 503
  /\ body (fst (app collab r w))
     = JObject [("success", JBool false);
                ("error", JString not_ready_error);
                ("qrAvailable", JBool (is_not_null (lastQRCode w)))]
  /\ calls (snd (app collab r w)) = calls w.
Proof.
  intros Hr R.
  assert (H : app collab r w = (not_ready_response w, w)).
  { unfold app, error_middleware.
    destruct r; try discriminate Hr; simpl route;
      now rewrite requireClient_not_ready. }
  rewrite H. repeat split.
Qed.

Lemma readiness_gate_witness :
  app demo_collab (PostSendMessage (Some "bob@c.us") (Some "hi")) demo_pairing
  = (mkResponse 503
       (JObject [("success", JBool false);
                 ("error", JString not_ready_error);
                 ("qrAvailable", JBool true)]),
     demo_pairing).
Proof.
  apply (proj1 (readiness_gate demo_collab
                  (PostSendMessage (Some "bob@c.us") (Some "hi"))
                  demo_pairing eq_refl eq_refl)).
Defined.

(** C6. While the readiness flag is false, each of the fourteen adapter
    operations fails with the error "Client is not ready", by its own check
    or through getChats / getChatById, and makes no call to the
    collaborator. *)
Theorem operations_fail_when_not_ready (collab : Collaborator) (w : World) :
  isReady w = false ->
  fails_not_ready (getChats collab) w
  /\ (forall chatId, fails_not_ready (getChatById collab chatId) w)
  /\ fails_not_ready (getUnreadChats collab) w
  /\ fails_not_ready (getAllUnreadMessages collab) w
  /\ (forall chatId limit, fails_not_ready (getMessages collab chatId limit) w)
  /\ (forall chatId, fails_not_ready (getUnreadMessagesFromChat collab chatId) w)
  /\ (forall chatId, fails_not_ready (markChatAsRead collab chatId) w)
  /\ fails_not_ready (markAllChatsAsRead collab) w
  /\ (forall chatId message, fails_not_ready (sendMessage collab chatId message) w)
  /\ (forall message, fails_not_ready (sendMessageToSelf collab message) w)
  /\ (forall query options, fails_not_ready (searchMessages collab query options) w)
  /\ (forall contactId, fails_not_ready (getContactById collab contactId) w)
  /\ fails_not_ready (getContacts collab) w
  /\ fails_not_ready getUserInfo w.
Proof.
  intro R.
  pose proof (getChats_not_ready collab w R) as Hchats.
  pose proof (fun chatId => getChatById_not_ready collab chatId w R) as Hchat.
  repeat split; intros.
  - exact Hchats.
  - apply Hchat.
  - apply bind_fails, Hchats.
  - apply bind_fails, Hchats.
  - apply bind_fails, Hchat.
  - apply bind_fails, Hchat.
  - apply bind_fails, Hchat.
  - apply bind_fails, Hchats.
  - apply bind_fails, Hchat.
  - now apply gated_fails.
  - unfold searchMessages.
    destruct (truthy_field (so_chatId options)).
    + apply bind_fails, Hchat.
    + apply bind_fails, Hchats.
  - now apply gated_fails.
  - now apply gated_fails.
  - now apply gated_fails.
Qed.

Lemma operations_fail_when_not_ready_witness :
  getAllUnreadMessages demo_collab demo_pairing
  = (Throw "Client is not ready", demo_pairing)
  /\ sendMessageToSelf demo_collab "note" demo_pairing
     = (Throw "Client is not ready", demo_pairing).
Proof.
  pose proof (operations_fail_when_not_ready demo_collab demo_pairing eq_refl)
    as H.
  split.
  - apply H.
  - apply H.
Defined.

(** ** Input validation *)


Lemma send_message_route_invalid
  (collab : Collaborator) (chatId message : option string) (w : World) :
  truthy_field chatId = false \/ truthy_field message = false ->
  send_message_route collab chatId message w
  = (Ok (bad_request "Both chatId and message are required"), w).
Proof.
  intro H. unfold send_message_route.
  assert (E : negb (truthy_field chatId) || negb (truthy_field message) = true).
  { destruct H as [-> | ->]; simpl; [reflexivity|apply orb_true_r]. }
  now rewrite E.
Qed.

Lemma search_route_invalid
  (collab : Collaborator) (query limit chatId : option string) (w : World) :
  truthy_field query = false ->
  search_route collab query limit chatId w
  = (Ok (bad_request "query parameter is required"), w).
Proof. intro H. unfold search_route. now rewrite H. Qed.

(** The send route once both fields have passed the check. *)
Lemma send_message_route_valid
  (collab : Collaborator) (chatId message : string) (w : World) :
  truthy_str chatId = true -> truthy_str message = true ->
  isReady w = true ->
  send_message_route collab (Some chatId) (Some message) w
  = match c_getChatById collab chatId with
    | Throw e => (Throw e, log (CGetChatById chatId) w)
    | Ok chat =>
        match c_chatSendMessage collab chat message with
        | Throw e =>
            (Throw e,
             log_all [CGetChatById chatId; CGetChatById chatId;
                      CChatSendMessage (chat_id chat) message] w)
        | Ok sentMessage =>
            (Ok (res_json
                   (JObject [("success", JBool true);
                             ("message", JString "Message sent successfully");
                             ("chatId", JString chatId);
                             ("chatName", JString (chat_name chat));
                             ("messageId", JString (msg_id sentMessage));
                             ("timestamp",
                              JNumber (msg_timestamp sentMessage))])),
             log_all [CGetChatById chatId; CGetChatById chatId;
                      CChatSendMessage (chat_id chat) message] w)
        end
    end.
Proof.
  intros Hc Hm R. unfold send_message_route.
  change (truthy_field (Some chatId)) with (truthy_str chatId).
  change (truthy_field (Some message)) with (truthy_str message).
  rewrite Hc, Hm. cbv [negb orb].
  unfold sendMessage.
  destruct (c_getChatById collab chatId) as [chat|e] eqn:E.
  - assert (G1 : getChatById collab chatId w
                 = (Ok chat, log (CGetChatById chatId) w))
      by (rewrite getChatById_ready by assumption; now rewrite E).
    assert (G2 : getChatById collab chatId (log (CGetChatById chatId) w)
                 = (Ok chat, log_all [CGetChatById chatId; CGetChatById chatId] w))
      by (rewrite getChatById_ready by assumption; now rewrite E).
    rewrite (bind_ok _ _ G1).
    unfold bind at 1. rewrite (bind_ok _ _ G2). unfold call, ret.
    now destruct (c_chatSendMessage collab chat message).
  - apply bind_throw. rewrite getChatById_ready by assumption. now rewrite E.
Qed.

(** C7, as stated, fails: the readiness gate runs before the validation, so
    a send without chatId, or a search without query, is answered 503 and
    not 400 while the adapter is not ready; and a send whose chatId is
    present but empty is answered 400 without any delegation. *)
Lemma validation_before_gate_counterexample :
  (isReady demo_pairing = false
   /\ status (fst (app demo_collab (PostSendMessage None (Some "hi"))
                       demo_pairing)) = 503
   /\ status (fst (app demo_collab (GetSearch None None None)
                       demo_pairing)) = 503)
  /\
  (isReady demo_ready = true
   /\ app demo_collab (PostSendMessage (Some "") (Some "hi")) demo_ready
      = (bad_request "Both chatId and message are required", demo_ready)).
Proof. repeat split. Qed.

(** C7, amended. While the adapter is ready: POST /api/send-message whose
    chatId or message is missing or empty, and GET /api/search whose query
    is missing or empty, are answered 400 with success = false and no call
    to the collaborator; a send with both fields non-empty is delegated
    (its first call is getChatById on the given chatId, its answer is not
    400, and it is the success envelope with messageId and timestamp when
    the collaborator answers).  While the adapter is not ready both routes
    are answered by the readiness gate. *)
Theorem send_and_search_validation (collab : Collaborator) (w : World) :
  (isReady w = true ->
   (forall chatId message,
       truthy_field chatId = false \/ truthy_field message = false ->
       app collab (PostSendMessage chatId message) w
       = (bad_request "Both chatId and message are required", w))
   /\ (forall query limit chatId,
          truthy_field query = false ->
          app collab (GetSearch query limit chatId) w
          = (bad_request "query parameter is required", w))
   /\ (forall chatId message,
          truthy_str chatId = true -> truthy_str message = true ->
          exists resp w' rest,
            app collab (PostSendMessage (Some chatId) (Some message)) w
            = (resp, w')
            /\ status resp <> 400
            /\ calls w' = (calls w ++ CGetChatById chatId :: rest)%list
            /\ (forall chat sent,
                   c_getChatById collab chatId = Ok chat ->
                   c_chatSendMessage collab chat message = Ok sent ->
                   resp = res_json
                            (JObject
                               [("success", JBool true);
                                ("message", JString "Message sent successfully");
                                ("chatId", JString chatId);
                                ("chatName", JString (chat_name chat));
                                ("messageId", JString (msg_id sent));
                                ("timestamp", JNumber (msg_timestamp sent))]))))
  /\
  (isReady w = false ->
   forall chatId message query limit searchChat,
     app collab (PostSendMessage chatId message) w = (not_ready_response w, w)
     /\ app collab (GetSearch query limit searchChat) w
        = (not_ready_response w, w)).
Proof.
  split.
  - intro R. split; [|split].
    + intros chatId message H. unfold app, error_middleware, route.
      rewrite requireClient_ready by assumption.
      now rewrite send_message_route_invalid.
    + intros query limit chatId H. unfold app, error_middleware, route.
      rewrite requireClient_ready by assumption.
      now rewrite search_route_invalid.
    + intros chatId message Hc Hm. unfold app, error_middleware, route.
      rewrite requireClient_ready by assumption.
      rewrite send_message_route_valid by assumption.
      destruct (c_getChatById collab chatId) as [chat|e] eqn:E1.
      * destruct (c_chatSendMessage collab chat message) as [sent|e] eqn:E2.
        -- eexists; eexists; eexists. split; [reflexivity|].
           split; [simpl; discriminate|].
           split; [rewrite calls_log_all; reflexivity|].
           intros chat' sent' Hx Hy. inversion Hx; subst.
           rewrite E2 in Hy. inversion Hy. reflexivity.
        -- eexists; eexists; eexists. split; [reflexivity|].
           split; [simpl; discriminate|].
           split; [rewrite calls_log_all; reflexivity|].
           intros chat' sent' Hx Hy. inversion Hx; subst.
           rewrite E2 in Hy. discriminate.
      * eexists; eexists; exists []. split; [reflexivity|].
        split; [simpl; discriminate|].
        split; [reflexivity|].
        intros chat' sent' Hx. discriminate.
  - intros R chatId message query limit searchChat.
    unfold app, error_middleware, route.
    now rewrite !requireClient_not_ready.
Qed.

Lemma send_and_search_validation_witness :
  app demo_collab (PostSendMessage None (Some "hi")) demo_ready
  = (bad_request "Both chatId and message are required", demo_ready)
  /\ app demo_collab (PostSendMessage (Some "bob@c.us") None) demo_ready
     = (bad_request "Both chatId and message are required", demo_ready)
  /\ app demo_collab (GetSearch None (Some "10") None) demo_ready
     = (bad_request "query parameter is required", demo_ready)
  /\ app demo_collab (GetSearch None None None) demo_pairing
     = (not_ready_response demo_pairing, demo_pairing).
Proof.
  pose proof (proj1 (send_and_search_validation demo_collab demo_ready) eq_refl)
    as (Hsend & Hsearch & _).
  pose proof (proj2 (send_and_search_validation demo_collab demo_pairing) eq_refl)
    as Hgate.
  split; [apply Hsend; left; reflexivity|].
  split; [apply Hsend; right; reflexivity|].
  split; [apply Hsearch; reflexivity|].
  apply (Hgate None None None None None).
Defined.

(** ** The limit of GET /api/chats/:chatId/messages *)

Lemma chat_messages_route_calls
  (collab : Collaborator) (chatId : string) (limit : option string)
  (chat : Chat) (w : World) :
  isReady w = true ->
  c_getChatById collab chatId = Ok chat ->
  calls (snd (app collab (GetChatMessages chatId limit) w))
  = (calls w ++ [CGetChatById chatId; CGetChatById chatId;
                 CFetchMessages (chat_id chat) (messages_limit limit)])%list.
Proof.
  intros R E. unfold app, error_middleware, route.
  rewrite requireClient_ready by assumption.
  unfold chat_messages_route, getMessages.
  assert (G1 : getChatById collab chatId w
               = (Ok chat, log (CGetChatById chatId) w))
    by (rewrite getChatById_ready by assumption; now rewrite E).
  assert (G2 : getChatById collab chatId (log (CGetChatById chatId) w)
               = (Ok chat, log_all [CGetChatById chatId; CGetChatById chatId] w))
    by (rewrite getChatById_ready by assumption; now rewrite E).
  rewrite (bind_ok _ _ G1). unfold bind at 1. rewrite (bind_ok _ _ G2).
  unfold fetchMessages, call, ret.
  destruct (c_fetchMessages collab chat (messages_limit limit));
    simpl; now rewrite <- !app_assoc.
Qed.

(** C10. In GET /api/chats/:chatId/messages the limit handed on is 50
    whenever parseInt of the query parameter is NaN or 0 (parameter absent,
    "0", a string without leading digits), and the parsed number otherwise;
    it is the limit of the fetch the route makes. *)
Theorem messages_limit_falls_back :
  (forall limit,
      messages_limit limit
      = match parseInt_field limit with
        | NaN => Num 50
        | Num z => if z =? 0 then Num 50 else Num z
        end)
  /\ messages_limit None = Num 50
  /\ messages_limit (Some "0") = Num 50
  /\ messages_limit (Some "-0") = Num 50
  /\ messages_limit (Some "abc") = Num 50
  /\ messages_limit (Some "") = Num 50
  /\ messages_limit (Some "25") = Num 25
  /\ (forall collab chatId limit chat w,
         isReady w = true ->
         c_getChatById collab chatId = Ok chat ->
         parseInt_field limit = NaN \/ parseInt_field limit = Num 0 ->
         calls (snd (app collab (GetChatMessages chatId limit) w))
         = (calls w ++ [CGetChatById chatId; CGetChatById chatId;
                        CFetchMessages (chat_id chat) (Num 50)])%list).
Proof.
  split.
  { intro limit. unfold messages_limit, or_num, truthy_num.
    destruct (parseInt_field limit) as [|z]; [reflexivity|].
    now destruct (z =? 0). }
  repeat (split; [reflexivity|]).
  intros collab chatId limit chat w R E H.
  rewrite (chat_messages_route_calls collab chatId limit chat w R E).
  unfold messages_limit. now destruct H as [-> | ->].
Qed.

Lemma messages_limit_falls_back_witness :
  calls (snd (app demo_collab (GetChatMessages "alice@c.us" (Some "0"))
                  demo_ready))
  = [CInitialize; CGetChatById "alice@c.us"; CGetChatById "alice@c.us";
     CFetchMessages "alice@c.us" (Num 50)].
Proof.
  apply (proj2 (proj2 (proj2 (proj2 (proj2 (proj2 (proj2
           messages_limit_falls_back))))))
           demo_collab "alice@c.us" (Some "0") alice demo_ready
           eq_refl eq_refl).
  right. reflexivity.
Defined.

(** ** searchMessages: strings *)







Lemma truthy_str_iff (s : string) : truthy_str s = true <-> s <> "".
Proof. destruct s; simpl; split; congruence. Qed.


(** ** searchMessages: the scan *)

Section Search.

Variable collab : Collaborator.
Variable query : string.
Variable limit : JSNum.







End Search.

Lemma searchMessages_unfold
  (collab : Collaborator) (query : string) (options : SearchOptions) :
  searchMessages collab query options
  = if truthy_field (so_chatId options) then
      chat <- getChatById collab
                (match so_chatId options with Some c => c | None => "" end) ;;
      search_step collab query (limit_of options) chat []
    else
      chats <- getChats collab ;;
      for_of chats [] (search_step collab query (limit_of options)).
Proof. reflexivity. Qed.





(** * Further properties *)

(** ** What a request can change *)

Lemma only_logs_ret {A} (a : A) : only_logs (ret a).
Proof. intro w. now exists []. Qed.

Lemma only_logs_throw {A} (e : string) : only_logs (@throw A e).
Proof. intro w. now exists []. Qed.

Lemma only_logs_get {A} (proj : World -> A) : only_logs (get proj).
Proof. intro w. now exists []. Qed.

Lemma only_logs_check_ready : only_logs check_ready.
Proof. intro w. exists []. unfold check_ready. now destruct (isReady w). Qed.

Lemma only_logs_call {A} (c : Call) (answer : Result A) :
  only_logs (call c answer).
Proof. intro w. now exists [c]. Qed.

Lemma only_logs_bind {A B} (m : M A) (k : A -> M B) :
  only_logs m -> (forall a, only_logs (k a)) -> only_logs (bind m k).
Proof.
  intros Hm Hk w. destruct (Hm w) as [cs Hcs]. unfold bind.
  destruct (m w) as [[a|e] w1]; simpl in Hcs; subst w1.
  - destruct (Hk a (log_all cs w)) as [ds Hds].
    exists (cs ++ ds)%list. now rewrite log_all_app.
  - now exists cs.
Qed.

Lemma only_logs_try_catch {A} (m : M A) (h : string -> M A) :
  only_logs m -> (forall e, only_logs (h e)) -> only_logs (try_catch m h).
Proof.
  intros Hm Hh w. destruct (Hm w) as [cs Hcs]. unfold try_catch.
  destruct (m w) as [[a|e] w1]; simpl in Hcs; subst w1.
  - now exists cs.
  - destruct (Hh e (log_all cs w)) as [ds Hds].
    exists (cs ++ ds)%list. now rewrite log_all_app.
Qed.

Lemma only_logs_for_of {A B} (xs : list A) (body : A -> B -> M B) :
  (forall x acc, only_logs (body x acc)) ->
  forall acc, only_logs (for_of xs acc body).
Proof.
  intro Hb. induction xs as [|x xs IH]; intro acc; simpl.
  - apply only_logs_ret.
  - apply only_logs_bind; [apply Hb | intro; apply IH].
Qed.

(** Takes an operation apart along its binds, loops and tests. *)
Ltac frame :=
  repeat first
    [ apply only_logs_ret
    | apply only_logs_throw
    | apply only_logs_get
    | apply only_logs_check_ready
    | apply only_logs_call
    | apply only_logs_for_of; intros
    | apply only_logs_try_catch; [|intros]
    | apply only_logs_bind; [|intros]
    | match goal with
      | |- only_logs (if ?b then _ else _) => destruct b
      | |- only_logs (match ?x with _ => _ end) => destruct x
      end ].

Section Frame.

Variable collab : Collaborator.

Lemma only_logs_getChatById chatId : only_logs (getChatById collab chatId).
Proof. unfold getChatById. frame. Qed.

Lemma only_logs_getAllUnreadMessages : only_logs (getAllUnreadMessages collab).
Proof. unfold getAllUnreadMessages, getChats, fetchMessages. frame. Qed.

Lemma only_logs_getUnreadMessagesFromChat chatId :
  only_logs (getUnreadMessagesFromChat collab chatId).
Proof. unfold getUnreadMessagesFromChat, getChatById, fetchMessages. frame. Qed.

Lemma only_logs_markAllChatsAsRead : only_logs (markAllChatsAsRead collab).
Proof. unfold markAllChatsAsRead, getChats, sendSeen. frame. Qed.

Lemma only_logs_searchMessages query options :
  only_logs (searchMessages collab query options).
Proof. unfold searchMessages, getChatById, getChats, fetchMessages. frame. Qed.

Lemma only_logs_requireClient next :
  only_logs next -> only_logs (requireClient next).
Proof. intro H. unfold requireClient, isClientReady. frame. exact H. Qed.

Lemma only_logs_route (r : Request) : only_logs (route collab r).
Proof.
  destruct r; simpl route; try apply only_logs_requireClient.
  - unfold root_route, isClientReady. frame.
  - unfold health_route, getClientInfo, isClientReady. frame.
  - unfold qr_route, isClientReady. frame.
  - unfold chats_route. frame.
  - unfold unread_chats_route. frame.
  - unfold unread_messages_route.
    apply only_logs_bind; [apply only_logs_getAllUnreadMessages | intro; frame].
  - unfold chat_messages_route. frame.
  - unfold chat_unread_route.
    apply only_logs_bind; [apply only_logs_getChatById | intro].
    apply only_logs_bind;
      [apply only_logs_getUnreadMessagesFromChat | intro; frame].
  - unfold mark_read_route. frame.
  - unfold mark_all_read_route.
    apply only_logs_bind; [apply only_logs_markAllChatsAsRead | intro; frame].
  - unfold send_message_route. frame.
  - unfold send_message_to_self_route. frame.
  - unfold search_route. destruct (negb (truthy_field query)); [frame|].
    apply only_logs_bind; [apply only_logs_searchMessages | intro; frame].
  - unfold contact_route. frame.
  - unfold contacts_route. frame.
  - unfold not_found_route. frame.
Qed.

Lemma app_logs (r : Request) (w : World) :
  exists cs, snd (app collab r w) = log_all cs w.
Proof.
  destruct (only_logs_route r w) as [cs H]. exists cs.
  unfold app, error_middleware. now destruct (route collab r w) as [[x|e] w1].
Qed.

End Frame.

Lemma log_all_fields (cs : list Call) (w : World) :
  log_all cs w
  = mkWorld (client w) (isReady w) (clientInfo w) (qrCode w) (lastQRCode w)
            (calls w ++ cs).
Proof.
  revert w. induction cs as [|c cs IH]; intro w.
  - simpl. rewrite app_nil_r. now destruct w.
  - rewrite log_all_cons, IH. simpl. now rewrite <- app_assoc.
Qed.

(** X1. Serving a request, whatever the route and whatever the collaborator
    answers, changes nothing of the state but the call log, which only
    grows: the client, the readiness flag, the client info and both QR
    codes are as before. *)
Theorem requests_only_extend_the_log
  (collab : Collaborator) (r : Request) (w : World) :
  client (snd (app collab r w)) = client w
  /\ isReady (snd (app collab r w)) = isReady w
  /\ clientInfo (snd (app collab r w)) = clientInfo w
  /\ qrCode (snd (app collab r w)) = qrCode w
  /\ lastQRCode (snd (app collab r w)) = lastQRCode w
  /\ exists cs, calls (snd (app collab r w)) = (calls w ++ cs)%list.
Proof.
  destruct (app_logs collab r w) as [cs ->]. rewrite log_all_fields. simpl.
  repeat split. now exists cs.
Qed.

(** ** Life cycle of the client *)

Lemma destroy_run (collab : Collaborator) (w : World) :
  destroy collab w
  = if client w then
      match c_destroy collab with
      | Ok _ => (Ok tt,
                 mkWorld false false None (qrCode w) (lastQRCode w)
                         (calls w ++ [CDestroy]))
      | Throw e => (Throw e, log CDestroy w)
      end
    else (Ok tt, w).
Proof.
  unfold destroy, bind, get, call, modify, ret.
  destruct (client w); [|reflexivity].
  now destruct (c_destroy collab).
Qed.

Lemma logout_run (collab : Collaborator) (w : World) :
  logout collab w
  = if client w then
      match c_logout collab with
      | Ok _ => (Ok tt,
                 mkWorld true false None (qrCode w) (lastQRCode w)
                         (calls w ++ [CLogout]))
      | Throw e => (Throw e, log CLogout w)
      end
    else (Ok tt, w).
Proof.
  unfold logout, bind, get, call, modify, ret.
  destruct (client w) eqn:C; [|reflexivity].
  destruct (c_logout collab); simpl; now rewrite ?C.
Qed.

(** X3. destroy with a client asks the collaborator once.  When that
    succeeds the client, the readiness flag and the client info are gone,
    every gated operation fails "not ready", and a later initialize builds
    a new client.  When it is rejected the error is passed on and the
    state, readiness included, is kept.  Without a client destroy does
    nothing. *)
Theorem destroy_spec (collab : Collaborator) (w : World) :
  (client w = false -> destroy collab w = (Ok tt, w))
  /\
  (client w = true ->
   forall e, c_destroy collab = Throw e ->
     destroy collab w = (Throw e, log CDestroy w)
     /\ isReady (snd (destroy collab w)) = isReady w
     /\ client (snd (destroy collab w)) = true)
  /\
  (client w = true ->
   forall u, c_destroy collab = Ok u ->
     fst (destroy collab w) = Ok tt
     /\ client (snd (destroy collab w)) = false
     /\ isReady (snd (destroy collab w)) = false
     /\ clientInfo (snd (destroy collab w)) = None
     /\ calls (snd (destroy collab w)) = (calls w ++ [CDestroy])%list
     /\ fails_not_ready (getChats collab) (snd (destroy collab w))
     /\ calls (snd (initialize (snd (destroy collab w))))
        = (calls w ++ [CDestroy; CInitialize])%list).
Proof.
  rewrite destroy_run. split; [|split].
  - now intros ->.
  - intros C e ->. rewrite C. simpl. repeat split. exact C.
  - intros -> u ->. simpl. repeat split. now rewrite <- app_assoc.
Qed.

Lemma destroy_spec_witness :
  client (snd (destroy demo_collab demo_ready)) = false
  /\ isReady (snd (destroy demo_collab demo_ready)) = false
  /\ destroy failing_collab demo_ready
     = (Throw "Evaluation failed", log CDestroy demo_ready)
  /\ destroy demo_collab world0 = (Ok tt, world0).
Proof.
  pose proof (destroy_spec demo_collab demo_ready) as (_ & _ & Hok).
  pose proof (destroy_spec failing_collab demo_ready) as (_ & Hfail & _).
  pose proof (destroy_spec demo_collab world0) as (Hnone & _).
  specialize (Hok eq_refl tt eq_refl).
  specialize (Hfail eq_refl _ eq_refl).
  split; [apply Hok|]. split; [apply Hok|]. split; [apply Hfail|].
  apply Hnone. reflexivity.
Defined.

(** ** Readiness and the client info *)

Lemma ready_has_info_step_event (e : Event) (w : World) :
  (isReady w = true -> clientInfo w <> None) ->
  isReady (on_event e w) = true -> clientInfo (on_event e w) <> None.
Proof. destruct e; simpl; intros H R; try discriminate; auto. Qed.

Lemma reachable_ready_has_info (collab : Collaborator) (w : World) :
  Reachable collab w -> isReady w = true -> clientInfo w <> None.
Proof.
  induction 1 as [|w H IH|w e H IH|w H IH|w H IH|w r H IH].
  - discriminate.
  - unfold initialize. now destruct (client w).
  - now apply ready_has_info_step_event.
  - rewrite logout_run. destruct (client w); [|exact IH].
    destruct (c_logout collab); simpl; [discriminate|exact IH].
  - rewrite destroy_run. destruct (client w); [|exact IH].
    destruct (c_destroy collab); simpl; [discriminate|exact IH].
  - destruct (app_logs collab r w) as [cs ->]. rewrite log_all_fields. exact IH.
Qed.

(** X5. In every world the process can reach, a raised readiness flag
    comes with a client info.  There sendMessageToSelf never trips on a
    null info: it makes the single call client.sendMessage(own wid,
    message) and returns its outcome, and getUserInfo returns the five
    fields of the info without any call. *)
Theorem ready_implies_client_info
  (collab : Collaborator) (w : World) :
  Reachable collab w ->
  isReady w = true ->
  exists info,
    clientInfo w = Some info
    /\ (forall message,
           sendMessageToSelf collab message w
           = (c_sendMessage collab (info_wid_serialized info) message,
              log (CSendMessage (info_wid_serialized info) message) w))
    /\ getUserInfo w
       = (Ok (mkUserInfo (info_pushname info) (info_wid_user info)
                (info_platform info) (info_wid_serialized info)
                (info_me info)),
          w).
Proof.
  intros Hreach R.
  pose proof (reachable_ready_has_info collab w Hreach R) as Hinfo.
  destruct (clientInfo w) as [info|] eqn:E; [|congruence].
  exists info. split; [reflexivity|]. split.
  - intro message. unfold sendMessageToSelf.
    rewrite (bind_ok _ _ (check_ready_ok _ R)).
    unfold bind, get. now rewrite E.
  - unfold getUserInfo. rewrite (bind_ok _ _ (check_ready_ok _ R)).
    unfold bind, get. now rewrite E.
Qed.

Lemma demo_ready_reachable : Reachable demo_collab demo_ready.
Proof.
  unfold demo_ready, demo_pairing.
  apply reach_event, reach_event, reach_initialize, reach_start.
Qed.

Lemma ready_implies_client_info_witness :
  exists info,
    clientInfo demo_ready = Some info
    /\ (forall message,
           sendMessageToSelf demo_collab message demo_ready
           = (c_sendMessage demo_collab (info_wid_serialized info) message,
              log (CSendMessage (info_wid_serialized info) message) demo_ready))
    /\ getUserInfo demo_ready
       = (Ok (mkUserInfo (info_pushname info) (info_wid_user info)
                (info_platform info) (info_wid_serialized info)
                (info_me info)),
          demo_ready).
Proof.
  exact (ready_implies_client_info demo_collab demo_ready
           demo_ready_reachable eq_refl).
Defined.

(** ** The status of a response *)

Lemma answers_ret (P : Response -> bool) (r : Response) :
  P r = true -> answers P (ret r).
Proof. intros H w r' w' E. inversion E. now subst. Qed.

Lemma answers_bind {A} (P : Response -> bool) (m : M A) (k : A -> M Response) :
  (forall a, answers P (k a)) -> answers P (bind m k).
Proof.
  intros H w r w' E. apply bind_ok_inv in E.
  destruct E as (a & w1 & _ & E). exact (H a w1 r w' E).
Qed.

Ltac answer :=
  repeat first [ apply answers_bind; intro | apply answers_ret; reflexivity ].

Lemma send_message_to_self_route_invalid
  (collab : Collaborator) (message : option string) (w : World) :
  truthy_field message = false ->
  send_message_to_self_route collab message w
  = (Ok (bad_request "message is required"), w).
Proof. intro H. unfold send_message_to_self_route. now rewrite H. Qed.

Section Status.

Variable collab : Collaborator.

(** What a gated route returns on valid input is a 200 with
    [success: true]. *)
Lemma valid_route_answers (r : Request) (w : World) :
  is_data_route r = true -> invalid_input r = false -> isReady w = true ->
  forall resp w', route collab r w = (Ok resp, w') -> is_success resp = true.
Proof.
  intros Hd Hv R resp w'.
  destruct r; try discriminate Hd; simpl route;
    rewrite requireClient_ready by assumption; simpl in Hv.
  - apply (answers_bind is_success). intro. answer.
  - unfold unread_chats_route. answer.
  - unfold unread_messages_route. answer.
  - unfold chat_messages_route. answer.
  - unfold chat_unread_route. answer.
  - unfold mark_read_route. answer.
  - unfold mark_all_read_route. answer.
  - unfold send_message_route. rewrite Hv. answer.
  - unfold send_message_to_self_route. rewrite Hv. answer.
  - unfold search_route. rewrite Hv. answer.
  - unfold contact_route. answer.
  - unfold contacts_route. answer.
Qed.

Lemma invalid_route_answers (r : Request) (w : World) :
  is_data_route r = true -> invalid_input r = true -> isReady w = true ->
  exists error, route collab r w = (Ok (bad_request error), w).
Proof.
  intros Hd Hv R.
  destruct r; try discriminate Hd; try discriminate Hv; simpl route;
    rewrite requireClient_ready by assumption; simpl in Hv.
  - eexists. apply send_message_route_invalid.
    apply orb_true_iff in Hv. destruct Hv as [H|H];
      apply negb_true_iff in H; auto.
  - eexists. apply send_message_to_self_route_invalid.
    now apply negb_true_iff in Hv.
  - eexists. apply search_route_invalid. now apply negb_true_iff in Hv.
Qed.

(** The four ways a gated route is answered. *)
Lemma data_route_cases (r : Request) (w : World) :
  is_data_route r = true ->
  (isReady w = false /\ app collab r w = (not_ready_response w, w))
  \/ (isReady w = true /\ invalid_input r = true
      /\ exists error, app collab r w = (bad_request error, w))
  \/ (isReady w = true /\ invalid_input r = false
      /\ exists resp w', route collab r w = (Ok resp, w')
                         /\ is_success resp = true
                         /\ app collab r w = (resp, w'))
  \/ (isReady w = true /\ invalid_input r = false
      /\ exists e w', route collab r w = (Throw e, w')
                      /\ app collab r w = (server_error e, w')).
Proof.
  intro Hd. destruct (isReady w) eqn:R.
  - right. destruct (invalid_input r) eqn:Hv.
    + left. repeat split.
      destruct (invalid_route_answers r w Hd Hv R) as [error H].
      exists error. unfold app, error_middleware. now rewrite H.
    + right. destruct (route collab r w) as [[resp|e] w'] eqn:E.
      * left. repeat split. exists resp, w'. split; [reflexivity|].
        split; [exact (valid_route_answers r w Hd Hv R resp w' E)|].
        unfold app, error_middleware. now rewrite E.
      * right. repeat split. exists e, w'. split; [reflexivity|].
        unfold app, error_middleware. now rewrite E.
  - left. split; [reflexivity|].
    unfold app, error_middleware.
    destruct r; try discriminate Hd; simpl route;
      now rewrite requireClient_not_ready.
Qed.

Lemma open_route_run (r : Request) (w : World) :
  is_data_route r = false ->
  snd (app collab r w) = w
  /\ status (fst (app collab r w)) = (if is_unmatched r then 404 else 200).
Proof.
  intro Hd. destruct r; try discriminate Hd;
    unfold app, error_middleware; simpl.
  - unfold root_route, bind, isClientReady, get, ret. now simpl.
  - unfold health_route, bind, getClientInfo, isClientReady, get, ret.
    now simpl.
  - unfold qr_route, bind, isClientReady, get, ret. simpl.
    destruct (isReady w); [now simpl|].
    now destruct (truthy_field (lastQRCode w)).
  - now simpl.
Qed.

End Status.

Lemma is_success_inv (r : Response) :
  is_success r = true -> status r = 200 /\ success_of r = Some true.
Proof.
  unfold is_success. intro H. apply andb_true_iff in H. destruct H as [H1 H2].
  apply Z.eqb_eq in H1. split; [assumption|].
  destruct (success_of r) as [[|]|]; congruence.
Qed.

(** X6. The status of every response is decided as follows: 404 for an
    unmatched path; 200 for the three open routes; on a gated route 503
    while the adapter is not ready, else 400 when a required field is
    missing or empty, else 200 when the handler returns and 500 when an
    adapter operation throws.  In all but the last two cases no call is
    made and the world is left as it was. *)
Theorem status_table (collab : Collaborator) (r : Request) (w : World) :
  status (fst (app collab r w))
  = (if is_unmatched r then 404
     else if negb (is_data_route r) then 200
     else if negb (isReady w) then 503
     else if invalid_input r then 400
     else match fst (route collab r w) with
          | Ok _ => 200
          | Throw _ => 500
          end)
  /\ (is_data_route r = false \/ isReady w = false \/ invalid_input r = true ->
      snd (app collab r w) = w).
Proof.
  destruct (is_data_route r) eqn:Hd.
  - assert (Hu : is_unmatched r = false) by (now destruct r).
    rewrite Hu. simpl negb. cbv iota.
    destruct (data_route_cases collab r w Hd)
      as [(R & H) | [(R & Hv & error & H) | [(R & Hv & resp & w' & E & Hs & H)
                                            | (R & Hv & e & w' & E & H)]]];
      rewrite H, R; try rewrite Hv; try rewrite E; simpl.
    + split; [reflexivity|auto].
    + split; [reflexivity|auto].
    + split; [now apply is_success_inv in Hs|].
      intros [?|[?|?]]; discriminate.
    + split; [reflexivity|]. intros [?|[?|?]]; discriminate.
  - destruct (open_route_run collab r w Hd) as [Hw Hs].
    rewrite Hs. simpl. split; [reflexivity|auto].
Qed.

(** X7. Every response but that of GET / carries a boolean success field;
    success = true only comes with status 200, and on the gated routes
    success is true exactly when the status is 200. *)
Theorem success_flag (collab : Collaborator) (r : Request) (w : World) :
  r <> GetRoot ->
  exists b,
    success_of (fst (app collab r w)) = Some b
    /\ (b = true -> status (fst (app collab r w)) = 200)
    /\ (is_data_route r = true ->
        status (fst (app collab r w)) = 200 -> b = true).
Proof.
  intro Hr. destruct (is_data_route r) eqn:Hd.
  - destruct (data_route_cases collab r w Hd)
      as [(R & H) | [(R & Hv & error & H) | [(R & Hv & resp & w' & E & Hs & H)
                                            | (R & Hv & e & w' & E & H)]]];
      rewrite H; simpl fst.
    + exists false. repeat split; discriminate.
    + exists false. repeat split; discriminate.
    + apply is_success_inv in Hs. destruct Hs as [Hs1 Hs2].
      exists true. repeat split; auto.
    + exists false. repeat split; discriminate.
  - destruct r; try discriminate Hd; try congruence;
      unfold app, error_middleware; simpl.
    + exists true. repeat split.
    + unfold qr_route, bind, isClientReady, get, ret.
      destruct (isReady w); [exists true; repeat split|].
      destruct (truthy_field (lastQRCode w)).
      * exists true. repeat split.
      * exists false. repeat split; discriminate.
    + exists false. repeat split; discriminate.
Qed.

Lemma success_flag_witness :
  exists b,
    success_of (fst (app demo_collab PostMarkAllRead demo_ready)) = Some b
    /\ (b = true ->
        status (fst (app demo_collab PostMarkAllRead demo_ready)) = 200)
    /\ (is_data_route PostMarkAllRead = true ->
        status (fst (app demo_collab PostMarkAllRead demo_ready)) = 200 ->
        b = true).
Proof.
  apply (success_flag demo_collab PostMarkAllRead demo_ready). discriminate.
Defined.

Lemma status_table_witness :
  snd (app demo_collab (PostSendMessage None None) demo_ready) = demo_ready
  /\ snd (app demo_collab GetApiChats demo_pairing) = demo_pairing.
Proof.
  split.
  - apply (proj2 (status_table demo_collab (PostSendMessage None None)
                    demo_ready)).
    right. right. reflexivity.
  - apply (proj2 (status_table demo_collab GetApiChats demo_pairing)).
    right. left. reflexivity.
Defined.

(** ** Rejections of the collaborator *)

Lemma app_throw (collab : Collaborator) (r : Request) (w w' : World)
  (e : string) :
  route collab r w = (Throw e, w') -> app collab r w = (server_error e, w').
Proof. intro H. unfold app, error_middleware. now rewrite H. Qed.

Lemma app_ok (collab : Collaborator) (r : Request) (w w' : World)
  (resp : Response) :
  route collab r w = (Ok resp, w') -> app collab r w = (resp, w').
Proof. intro H. unfold app, error_middleware. now rewrite H. Qed.

Lemma getChatById_throw
  (collab : Collaborator) (chatId : string) (w : World) (e : string) :
  isReady w = true -> c_getChatById collab chatId = Throw e ->
  getChatById collab chatId w = (Throw e, log (CGetChatById chatId) w).
Proof. intros R H. rewrite getChatById_ready by assumption. now rewrite H. Qed.

Lemma getChats_ok (collab : Collaborator) (w : World) (chats : list Chat) :
  isReady w = true -> c_getChats collab = Ok chats ->
  getChats collab w = (Ok chats, log CGetChats w).
Proof. intros R H. rewrite getChats_ready by assumption. now rewrite H. Qed.

(** X9. While the adapter is ready, a chat the collaborator does not find
    is answered 500 with the error's message, not 404, by every route that
    names a chat (messages, unread, mark read, send, search in a chat);
    the lookup is the only call: nothing is fetched, marked or sent. *)
Theorem chat_lookup_rejection
  (collab : Collaborator) (w : World) (chatId e : string) (r : Request) :
  isReady w = true ->
  c_getChatById collab chatId = Throw e ->
  (exists limit, r = GetChatMessages chatId limit)
  \/ r = GetChatUnread chatId
  \/ r = PostMarkRead chatId
  \/ (exists message,
         r = PostSendMessage (Some chatId) (Some message)
         /\ chatId <> "" /\ message <> "")
  \/ (exists query limit,
         r = GetSearch (Some query) limit (Some chatId)
         /\ query <> "" /\ chatId <> "") ->
  app collab r w = (server_error e, log (CGetChatById chatId) w).
Proof.
  intros R H Hr. pose proof (getChatById_throw collab chatId w e R H) as G.
  apply app_throw.
  destruct Hr as [[limit ->] | [-> | [-> | [(message & -> & Hc & Hm)
                 | (query & limit & -> & Hq & Hc)]]]];
    simpl route; rewrite requireClient_ready by assumption.
  - apply bind_throw, G.
  - apply bind_throw, G.
  - apply bind_throw. unfold markChatAsRead. apply bind_throw, G.
  - rewrite send_message_route_valid by (assumption || now apply truthy_str_iff).
    now rewrite H.
  - unfold search_route.
    change (truthy_field (Some query)) with (truthy_str query).
    change (truthy_field (Some chatId)) with (truthy_str chatId).
    apply truthy_str_iff in Hq, Hc. rewrite Hq, Hc. simpl negb. cbv iota.
    apply bind_throw. rewrite searchMessages_unfold.
    cbn [so_chatId truthy_field]. rewrite Hc.
    apply bind_throw, G.
Qed.

Lemma chat_lookup_rejection_witness :
  app demo_collab (PostSendMessage (Some "nobody@c.us") (Some "hi")) demo_ready
  = (server_error "chat not found",
     log (CGetChatById "nobody@c.us") demo_ready).
Proof.
  apply (chat_lookup_rejection demo_collab demo_ready "nobody@c.us"
           "chat not found"
           (PostSendMessage (Some "nobody@c.us") (Some "hi"))
           eq_refl eq_refl).
  right. right. right. left. exists "hi". repeat split; discriminate.
Defined.

(** ** The routes over the batch operations *)

Lemma marked_count (collab : Collaborator) (chats : list Chat) :
  List.length (filter mr_success (map (mark_result_of collab) chats))
  = List.length (filter (seen_ok collab) chats).
Proof.
  induction chats as [|chat chats IH]; [reflexivity|]. simpl.
  unfold mark_result_of at 1, seen_ok at 1.
  destruct (c_sendSeen collab chat); simpl; now rewrite IH.
Qed.

(** X10. With the adapter ready and the chat list obtained, POST
    /api/mark-all-read always answers 200 with success = true, even when
    read receipts fail: totalUnread is the number of unread chats,
    markedCount the number of those whose receipt went through (so never
    more than totalUnread), and details holds one entry per unread chat. *)
Theorem mark_all_read_route_spec
  (collab : Collaborator) (w : World) (chats : list Chat) :
  isReady w = true ->
  c_getChats collab = Ok chats ->
  exists resp,
    app collab PostMarkAllRead w
    = (resp, log_all (CGetChats :: seen_calls chats) w)
    /\ status resp = 200
    /\ success_of resp = Some true
    /\ field_of "totalUnread" resp
       = Some (JNumber (Z.of_nat (List.length (filter is_unread chats))))
    /\ field_of "markedCount" resp
       = Some (JNumber (Z.of_nat (List.length
                 (filter (seen_ok collab) (filter is_unread chats)))))
    /\ (List.length (filter (seen_ok collab) (filter is_unread chats))
        <= List.length (filter is_unread chats))%nat
    /\ field_of "details" resp
       = Some (JArray (map format_mark_result
                         (map (mark_result_of collab)
                              (filter is_unread chats)))).
Proof.
  intros R Hc. eexists. split.
  - apply app_ok. simpl route. rewrite requireClient_ready by assumption.
    unfold mark_all_read_route.
    rewrite (bind_ok _ _ (markAllChatsAsRead_run collab w chats R Hc)).
    reflexivity.
  - unfold field_of, success_of, count. simpl.
    rewrite marked_count, length_map.
    repeat split. apply filter_length_le.
Qed.

Lemma mark_all_read_route_spec_witness :
  exists resp,
    fst (app demo_collab PostMarkAllRead demo_ready) = resp
    /\ status resp = 200
    /\ field_of "totalUnread" resp = Some (JNumber 2)
    /\ field_of "markedCount" resp = Some (JNumber 1).
Proof.
  destruct (mark_all_read_route_spec demo_collab demo_ready demo_chats
              eq_refl eq_refl)
    as (resp & Happ & Hs & _ & Ht & Hm & _).
  exists resp. rewrite Happ. repeat split; assumption.
Defined.

(** ** Search *)

Lemma for_of_ext {A B} (xs : list A) (body body' : A -> B -> M B) :
  (forall x acc w, body x acc w = body' x acc w) ->
  forall acc w, for_of xs acc body w = for_of xs acc body' w.
Proof.
  intro H. induction xs as [|x xs IH]; intros acc w; [reflexivity|].
  simpl. unfold bind. rewrite H.
  destruct (body' x acc w) as [[acc'|e] w1]; [apply IH|reflexivity].
Qed.

Lemma bind_ext {A B} (m : M A) (k k' : A -> M B) (w : World) :
  (forall a w1, k a w1 = k' a w1) -> bind m k w = bind m k' w.
Proof.
  intro H. unfold bind. destruct (m w) as [[a|e] w1]; [apply H|reflexivity].
Qed.

Lemma search_filter_same_case (q q' : string) (messages : list Message) :
  toLowerCase q = toLowerCase q' ->
  search_filter q messages = search_filter q' messages.
Proof.
  intro H. unfold search_filter. apply filter_ext. intro msg.
  unfold body_matches. now rewrite H.
Qed.

Lemma search_step_same_case
  (collab : Collaborator) (q q' : string) (limit : JSNum) (chat : Chat)
  (results : list SearchEntry) (w : World) :
  toLowerCase q = toLowerCase q' ->
  search_step collab q limit chat results w
  = search_step collab q' limit chat results w.
Proof.
  intro H. unfold search_step, bind.
  destruct (fetchMessages collab chat limit w) as [[messages|e] w1];
    [|reflexivity].
  now rewrite (search_filter_same_case q q' messages H).
Qed.

(** X16. searchMessages does not see the letter case of the query: two
    queries with the same lower-case form give the same outcome, result,
    errors and calls alike. *)
Theorem search_ignores_query_case
  (collab : Collaborator) (q q' : string) (options : SearchOptions)
  (w : World) :
  toLowerCase q = toLowerCase q' ->
  searchMessages collab q options w = searchMessages collab q' options w.
Proof.
  intro H. rewrite !searchMessages_unfold.
  destruct (truthy_field (so_chatId options)); apply bind_ext.
  - intros chat w1. now apply search_step_same_case.
  - intros chats w1. apply for_of_ext. intros.
    now apply search_step_same_case.
Qed.

Lemma search_ignores_query_case_witness :
  searchMessages demo_collab "NoOn" (mkSearchOptions None None) demo_ready
  = searchMessages demo_collab "noon" (mkSearchOptions None None) demo_ready.
Proof.
  apply (search_ignores_query_case demo_collab "NoOn" "noon"). reflexivity.
Defined.








(** ** parseInt on decimal numerals *)













(** ** A rejected fetch in the middle of a scan *)

Lemma for_of_abort {A B} (pre post : list A) (x : A) (body : A -> B -> M B)
  (acc acc1 : B) (w w1 w2 : World) (e : string) :
  for_of pre acc body w = (Ok acc1, w1) ->
  body x acc1 w1 = (Throw e, w2) ->
  for_of (pre ++ x :: post) acc body w = (Throw e, w2).
Proof.
  revert acc w. induction pre as [|y pre IH]; intros acc w Hpre Hx.
  - simpl in Hpre. inversion Hpre; subst. simpl. now apply bind_throw.
  - simpl in Hpre. apply bind_ok_inv in Hpre.
    destruct Hpre as (acc' & w' & Hy & Hrest).
    simpl. rewrite (bind_ok _ _ Hy). now apply IH.
Qed.

(** X21. getAllUnreadMessages stops at the first rejected fetch: the
    error is thrown, the entries gathered so far are lost, the chats after
    it are not fetched, and GET /api/unread-messages answers 500 (unlike
    markAllChatsAsRead, which goes on after a failure). *)
Theorem unread_scan_aborts
  (collab : Collaborator) (w : World) (pre post : list Chat) (chat : Chat)
  (e : string) :
  isReady w = true ->
  c_getChats collab = Ok (pre ++ chat :: post)%list ->
  Forall (unread_fetch_ok collab) (filter is_unread pre) ->
  0 < chat_unreadCount chat ->
  c_fetchMessages collab chat (Num (chat_unreadCount chat)) = Throw e ->
  getAllUnreadMessages collab w
  = (Throw e,
     log_all (CGetChats :: unread_fetches pre
              ++ [CFetchMessages (chat_id chat) (Num (chat_unreadCount chat))])
             w)
  /\ app collab GetUnreadMessages w
     = (server_error e,
        log_all (CGetChats :: unread_fetches pre
                 ++ [CFetchMessages (chat_id chat)
                       (Num (chat_unreadCount chat))])
                w).
Proof.
  intros R Hc Hall Hu Hf.
  assert (Hrun : getAllUnreadMessages collab w
                 = (Throw e,
                    log_all (CGetChats :: unread_fetches pre
                             ++ [CFetchMessages (chat_id chat)
                                   (Num (chat_unreadCount chat))]) w)).
  { rewrite getAllUnreadMessages_unfold.
    rewrite (bind_ok _ _ (getChats_ok collab w _ R Hc)).
    apply (for_of_abort pre post chat (unread_step collab) []
             (spec_listAllUnreadMessages collab pre)
             (log CGetChats w)
             (log_all (unread_fetches pre) (log CGetChats w))).
    - now rewrite unread_loop_run.
    - unfold unread_step. apply Z.gtb_lt in Hu. rewrite Hu.
      unfold bind, fetchMessages, call. rewrite Hf.
      rewrite log_all_cons, log_all_app. reflexivity. }
  split; [exact Hrun|].
  apply app_throw. simpl route. rewrite requireClient_ready by assumption.
  unfold unread_messages_route. now apply bind_throw.
Qed.

Lemma unread_scan_aborts_witness :
  app flaky_collab GetUnreadMessages demo_ready
  = (server_error "Evaluation failed",
     log_all [CGetChats; CFetchMessages "alice@c.us" (Num 2);
              CFetchMessages "team@g.us" (Num 1)] demo_ready).
Proof.
  apply (proj2 (unread_scan_aborts flaky_collab demo_ready [alice] [bob] team
                  "Evaluation failed" eq_refl eq_refl
                  (Forall_cons alice (ex_intro _ [a2; a3] eq_refl)
                               (Forall_nil _))
                  eq_refl eq_refl)).
Defined.
